(** * AgriImpact Insight: the store, the aggregator and the exporter of [app.py]

    A shallow embedding of [app.py] together with the properties its
    specification states.  The Python functions keep their names
    ([init_db], [add_event], [get_events], [add_attendee],
    [get_attendance_data], [export_csv], [markdown_table]).  The three
    library objects they lean on are modelled next to them:

    - [sqlite3]: a connection over a two-table database, with the
      statements that [app.py] issues and Python's implicit transactions;
    - [csv.DictWriter] over an [io.StringIO] buffer, excel dialect;
    - [collections.Counter] over an insertion-ordered [dict].

    Outside the model: failures of the storage medium itself (disk full,
    file locked by another process, permissions), the type affinity of
    columns, and text that cannot be encoded. *)

From Stdlib Require Import String Ascii List ZArith Lia Bool DecimalString FinFun.
Import ListNotations.
Open Scope string_scope.
Open Scope Z_scope.

(* ================================================================== *)
(** ** Python values, exceptions, dicts *)

(** The values that travel between sqlite3, the report and the exporter:
    [None] (SQL NULL), [int] and [str]. *)
Inductive value : Type :=
| VNone
| VInt (n : Z)
| VStr (s : string).

Definition value_eqb (a b : value) : bool :=
  match a, b with
  | VNone, VNone => true
  | VInt n, VInt m => Z.eqb n m
  | VStr s, VStr t => String.eqb s t
  | _, _ => false
  end.

(** [str(int)] *)
Definition str_int (n : Z) : string := NilZero.string_of_int (Z.to_int n).

(** [str(v)], which is also what an f-string field [{v}] produces. *)
Definition str (v : value) : string :=
  match v with
  | VNone => "None"
  | VInt n => str_int n
  | VStr s => s
  end.

(** The exceptions that the modelled library calls raise. *)
Inductive exn : Type :=
| OperationalError (msg : string)
| IntegrityError (msg : string)
| ProgrammingError (msg : string)
| ValueError (msg : string)
| OverflowError (msg : string)
| KeyError (key : string).

Inductive result (A : Type) : Type :=
| Ok (a : A)
| Raise (e : exn).
Arguments Ok {A} a.
Arguments Raise {A} e.

(** A Python [dict] keeps its keys in insertion order; assigning to a key
    that is present replaces the value in place. *)
Section Dict.
Context {K V : Type}.
Variable eqb : K -> K -> bool.

Definition dict_keys (d : list (K * V)) : list K := map fst d.

Fixpoint dict_get (d : list (K * V)) (key : K) (default : V) : V :=
  match d with
  | [] => default
  | (k, v) :: rest => if eqb k key then v else dict_get rest key default
  end.

Fixpoint dict_contains (d : list (K * V)) (key : K) : bool :=
  match d with
  | [] => false
  | (k, _) :: rest => eqb k key || dict_contains rest key
  end.

Fixpoint dict_setitem (d : list (K * V)) (key : K) (v : V) : list (K * V) :=
  match d with
  | [] => [(key, v)]
  | (k, w) :: rest =>
      if eqb k key then (k, v) :: rest
      else (k, w) :: dict_setitem rest key v
  end.
End Dict.

(** Records handed around by [app.py] are dicts from column names to
    values ([dict(row)] of a [sqlite3.Row]). *)
Definition record := list (string * value).

(** [item[key]] *)
Definition getitem (item : record) (key : string) : result value :=
  if dict_contains String.eqb item key
  then Ok (dict_get String.eqb item key VNone)
  else Raise (KeyError key).

(* ================================================================== *)
(** ** collections.Counter *)

Section Counter.
Context {K : Type}.
Variable eqb : K -> K -> bool.

(** [mapping[elem] = mapping.get(elem, 0) + 1] *)
Definition count_element (mapping : list (K * Z)) (elem : K) : list (K * Z) :=
  dict_setitem eqb mapping elem (dict_get eqb mapping elem 0 + 1).

(** [Counter(iterable)]: one [count_element] per element, in order. *)
Definition Counter (iterable : list K) : list (K * Z) :=
  fold_left count_element iterable [].

(** First-seen order, stated on its own: the head comes first, then the
    first-seen order of the tail without the head. *)
Fixpoint first_seen (l : list K) : list K :=
  match l with
  | [] => []
  | x :: rest => x :: filter (fun y => negb (eqb x y)) (first_seen rest)
  end.

(** [y] is not among [keys]. *)
Definition unseen (keys : list K) (y : K) : bool :=
  negb (existsb (fun x => eqb x y) keys).

Fixpoint occurrences (l : list K) (k : K) : Z :=
  match l with
  | [] => 0
  | x :: rest => (if eqb x k then 1 else 0) + occurrences rest k
  end.
End Counter.

(** [Counter(item[field] for item in data)], as in the report of [main]. *)
Fixpoint project (field : string) (data : list record) : result (list value) :=
  match data with
  | [] => Ok []
  | item :: rest =>
      match getitem item field with
      | Raise e => Raise e
      | Ok v =>
          match project field rest with
          | Raise e => Raise e
          | Ok vs => Ok (v :: vs)
          end
      end
  end.

Definition count_by (field : string) (data : list record)
  : result (list (value * Z)) :=
  match project field data with
  | Raise e => Raise e
  | Ok vs => Ok (Counter value_eqb vs)
  end.

Definition events_counts := count_by "event_title".
Definition gender_counts := count_by "gender".
Definition province_counts := count_by "province".

(* ================================================================== *)
(** ** markdown_table *)

(** The loop of [markdown_table]: one [lines.append] per item. *)
Fixpoint markdown_rows (lines : list string) (items : list (value * Z))
  : list string :=
  match items with
  | [] => lines
  | (key, val) :: rest =>
      markdown_rows (lines ++ ["|" ++ str key ++ "|" ++ str_int val ++ "|"]) rest
  end.

Definition newline : string := String "010" EmptyString.

Definition markdown_table (counts : list (value * Z)) (header1 header2 : string)
  : string :=
  let lines := ["|" ++ header1 ++ "|" ++ header2 ++ "|"; "|---|---|"] in
  let lines := markdown_rows lines counts in
  String.concat newline lines.

(* ================================================================== *)
(** ** csv.DictWriter over io.StringIO *)

Module Csv.

(** The excel dialect, which [csv.DictWriter] uses when none is given:
    delimiter [,], quotechar (code 34), doublequote, QUOTE_MINIMAL,
    lineterminator CR LF, no escapechar. *)
Definition delimiter : ascii := ","%char.
Definition quotechar : ascii := "034"%char.
Definition lineterminator : string := String "013" (String "010" EmptyString).

Fixpoint find_char (s : string) (c : ascii) : bool :=
  match s with
  | EmptyString => false
  | String d rest => Ascii.eqb d c || find_char rest c
  end.

(** A character that makes its field quoted. *)
Definition special (c : ascii) : bool :=
  Ascii.eqb c delimiter || Ascii.eqb c quotechar || find_char lineterminator c.

(** [join_append_data]: walks the field once; a special character sets
    the [quoted] flag, and a quotechar is written twice.  Returns the
    characters added to the record and the final flag. *)
Fixpoint join_append_data (field : string) (quoted : bool) : string * bool :=
  match field with
  | EmptyString => (EmptyString, quoted)
  | String c rest =>
      let '(out, q) := join_append_data rest (quoted || special c) in
      (if Ascii.eqb c quotechar then String quotechar (String c out)
       else String c out, q)
  end.

(** The record under construction: its text and its number of fields. *)
Definition rec_state : Type := string * nat.

(** [join_append]: a delimiter unless this is the first field, then the
    field, between quotechars when [quoted] ends up set. *)
Definition join_append (st : rec_state) (field : string) (quoted : bool)
  : rec_state :=
  let '(rec, num_fields) := st in
  let '(data, q) := join_append_data field quoted in
  let sep := match num_fields with
             | O => EmptyString
             | S _ => String delimiter EmptyString
             end in
  let body := if q then String quotechar (data ++ String quotechar EmptyString)
              else data in
  (rec ++ sep ++ body, S num_fields).

(** What the writer appends for one value: [None] is the empty field,
    a string is itself, anything else goes through [str]. *)
Definition field_text (v : value) : string :=
  match v with
  | VNone => EmptyString
  | VInt n => str_int n
  | VStr s => s
  end.

(** [writer.writerow(row)] on the buffer [f].  A record made of one
    empty field would be an empty line, so it is written as two
    quotechars. *)
Definition writerow (f : string) (row : list value) : string :=
  let '(rec, num_fields) :=
    fold_left (fun st v => join_append st (field_text v) false)
              row (EmptyString, O) in
  let rec :=
    if andb (Nat.ltb 0 num_fields) (Nat.eqb (String.length rec) 0)
    then fst (join_append (rec, Nat.pred num_fields) EmptyString true)
    else rec in
  f ++ rec ++ lineterminator.

(** [DictWriter(buffer, fieldnames=fieldnames)]: [restval] is the empty
    string and [extrasaction] is ["raise"]. *)
Definition restval : value := VStr EmptyString.

(** [rowdict.keys() - self.fieldnames] *)
Definition wrong_fields (fieldnames : list string) (rowdict : record)
  : list string :=
  filter (fun k => negb (existsb (String.eqb k) fieldnames))
         (dict_keys rowdict).

Definition extra_fields : exn :=
  ValueError "dict contains fields not in fieldnames".

(** [DictWriter._dict_to_list] *)
Definition dict_to_list (fieldnames : list string) (rowdict : record)
  : result (list value) :=
  match wrong_fields fieldnames rowdict with
  | [] => Ok (map (fun key => dict_get String.eqb rowdict key restval)
                  fieldnames)
  | _ :: _ => Raise extra_fields
  end.

Definition DictWriter_writerow (f : string) (fieldnames : list string)
           (rowdict : record) : result string :=
  match dict_to_list fieldnames rowdict with
  | Raise e => Raise e
  | Ok row => Ok (writerow f row)
  end.

(** [dict(zip(keys, vals))] *)
Definition dict_zip (keys : list string) (vals : list value) : record :=
  fold_left (fun d kv => dict_setitem String.eqb d (fst kv) (snd kv))
            (combine keys vals) [].

(** [DictWriter.writeheader] *)
Definition writeheader (f : string) (fieldnames : list string)
  : result string :=
  DictWriter_writerow f fieldnames (dict_zip fieldnames (map VStr fieldnames)).

(** [DictWriter.writerows]: row after row, stopping at the first row
    that raises. *)
Fixpoint writerows (f : string) (fieldnames : list string)
         (rowdicts : list record) : result string :=
  match rowdicts with
  | [] => Ok f
  | rowdict :: rest =>
      match DictWriter_writerow f fieldnames rowdict with
      | Raise e => Raise e
      | Ok f' => writerows f' fieldnames rest
      end
  end.

End Csv.

Definition export_csv (data : list record) : result string :=
  match data with
  | [] => Ok EmptyString
  | first :: _ =>
      let fieldnames := dict_keys first in
      let buffer := EmptyString in
      match Csv.writeheader buffer fieldnames with
      | Raise e => Raise e
      | Ok buffer => Csv.writerows buffer fieldnames data
      end
  end.

(* ================================================================== *)
(** ** The sqlite3 engine, as far as [app.py] drives it *)

Module Sqlite.

Record column : Type := {
  col_name : string;
  col_type : string;
  col_notnull : bool
}.

(** A rowid table.  [tbl_key] is the name of its INTEGER PRIMARY KEY
    column when it declares one (that column is the rowid); [tbl_cols]
    are the other columns in declaration order; a row is its rowid and
    one value per column of [tbl_cols], and the rows are kept in rowid
    order, the order of a table scan.  [tbl_seq] is the table's entry in
    sqlite_sequence, the largest rowid it ever held.

    Type affinity is not modelled (values are stored as they are bound),
    nor is the 64-bit limit of rowids. *)
Record table : Type := {
  tbl_key : option string;
  tbl_cols : list column;
  tbl_rows : list (Z * list value);
  tbl_seq : Z
}.

(** The database file: the two tables [app.py] knows, each present or
    not.  A file that does not exist yet is the database without tables. *)
Record database : Type := {
  events : option table;
  attendees : option table
}.

Definition empty_database : database :=
  {| events := None; attendees := None |}.

Inductive table_name : Type := Events | Attendees.

Definition get_table (db : database) (t : table_name) : option table :=
  match t with
  | Events => events db
  | Attendees => attendees db
  end.

Definition set_table (db : database) (t : table_name) (tb : table)
  : database :=
  match t with
  | Events => {| events := Some tb; attendees := attendees db |}
  | Attendees => {| events := events db; attendees := Some tb |}
  end.

Definition table_label (t : table_name) : string :=
  match t with
  | Events => "events"
  | Attendees => "attendees"
  end.

(** What the linked SQLite library can do: ALTER TABLE ... RENAME COLUMN
    exists from version 3.25.0 on. *)
Record library : Type := {
  rename_column_supported : bool
}.

(** The statements of [app.py], with the bound parameters in place of
    the question marks. *)
Inductive statement : Type :=
| CreateTableIfNotExists (t : table_name) (key : string) (cols : list column)
| PragmaTableInfo (t : table_name)
| AlterTableRenameColumn (t : table_name) (old new : string)
| InsertInto (t : table_name) (cols : list string) (params : list value)
| SelectFrom (t : table_name) (cols : list string)
| SelectAttendanceJoin.

(** A result row: the column labels with their values. *)
Definition row : Type := list (string * value).

(** *** Identifiers compare without regard to ASCII case *)

Definition lower_ascii (c : ascii) : ascii :=
  let n := nat_of_ascii c in
  if andb (Nat.leb 65 n) (Nat.leb n 90) then ascii_of_nat (n + 32) else c.

Fixpoint lower (s : string) : string :=
  match s with
  | EmptyString => EmptyString
  | String c rest => String (lower_ascii c) (lower rest)
  end.

Definition name_eqb (a b : string) : bool := String.eqb (lower a) (lower b).

(** *** Columns *)

Definition column_names (tb : table) : list string :=
  match tbl_key tb with
  | Some k => k :: map col_name (tbl_cols tb)
  | None => map col_name (tbl_cols tb)
  end.

Definition is_key (tb : table) (name : string) : bool :=
  match tbl_key tb with
  | Some k => name_eqb k name
  | None => false
  end.

Definition has_column (tb : table) (name : string) : bool :=
  existsb (fun c => name_eqb c name) (column_names tb).

(** The value of column [name] in a row, with the declared name of the
    column it resolves to. *)
Fixpoint lookup_cols (cols : list column) (vals : list value) (name : string)
  : option (string * value) :=
  match cols, vals with
  | c :: cols', v :: vals' =>
      if name_eqb (col_name c) name then Some (col_name c, v)
      else lookup_cols cols' vals' name
  | _, _ => None
  end.

Definition lookup (tb : table) (r : Z * list value) (name : string)
  : option (string * value) :=
  match tbl_key tb with
  | Some k =>
      if name_eqb k name then Some (k, VInt (fst r))
      else lookup_cols (tbl_cols tb) (snd r) name
  | None => lookup_cols (tbl_cols tb) (snd r) name
  end.

(** *** CREATE TABLE IF NOT EXISTS *)

Definition create_table_if_not_exists (db : database) (t : table_name)
           (key : string) (cols : list column) : database :=
  match get_table db t with
  | Some _ => db
  | None =>
      set_table db t
        {| tbl_key := Some key; tbl_cols := cols; tbl_rows := []; tbl_seq := 0 |}
  end.

(** *** PRAGMA table_info: (cid, name, type, notnull, dflt_value, pk) *)

Definition info_row (cid : Z) (name type : string) (notnull pk : bool) : row :=
  [("cid", VInt cid); ("name", VStr name); ("type", VStr type);
   ("notnull", VInt (if notnull then 1 else 0)); ("dflt_value", VNone);
   ("pk", VInt (if pk then 1 else 0))].

Fixpoint info_cols (cid : Z) (cols : list column) : list row :=
  match cols with
  | [] => []
  | c :: rest =>
      info_row cid (col_name c) (col_type c) (col_notnull c) false
        :: info_cols (cid + 1) rest
  end.

Definition table_info (db : database) (t : table_name) : list row :=
  match get_table db t with
  | None => []
  | Some tb =>
      match tbl_key tb with
      | Some k => info_row 0 k "INTEGER" false true :: info_cols 1 (tbl_cols tb)
      | None => info_cols 0 (tbl_cols tb)
      end
  end.

(** *** ALTER TABLE ... RENAME COLUMN old TO new
    (for [old] and [new] that differ, as in [app.py]) *)

Fixpoint rename_in_cols (cols : list column) (old new : string) : list column :=
  match cols with
  | [] => []
  | c :: rest =>
      if name_eqb (col_name c) old
      then {| col_name := new; col_type := col_type c;
              col_notnull := col_notnull c |} :: rest
      else c :: rename_in_cols rest old new
  end.

Definition rename_column (lib : library) (db : database) (t : table_name)
           (old new : string) : result database :=
  if negb (rename_column_supported lib)
  then Raise (OperationalError "near COLUMN: syntax error")
  else
    match get_table db t with
    | None => Raise (OperationalError "no such table")
    | Some tb =>
        if negb (has_column tb old)
        then Raise (OperationalError "no such column")
        else if has_column tb new
        then Raise (OperationalError "duplicate column name")
        else if is_key tb old
        then Ok (set_table db t
                   {| tbl_key := Some new; tbl_cols := tbl_cols tb;
                      tbl_rows := tbl_rows tb; tbl_seq := tbl_seq tb |})
        else Ok (set_table db t
                   {| tbl_key := tbl_key tb;
                      tbl_cols := rename_in_cols (tbl_cols tb) old new;
                      tbl_rows := tbl_rows tb; tbl_seq := tbl_seq tb |})
    end.

(** *** INSERT INTO t (cols) VALUES (?, ...) *)

(** The parameter bound to column [name], if the statement names it. *)
Fixpoint bound (cols : list string) (params : list value) (name : string)
  : option value :=
  match cols, params with
  | c :: cols', v :: params' =>
      if name_eqb c name then Some v else bound cols' params' name
  | _, _ => None
  end.

(** A column the statement does not name gets NULL (no column of
    [app.py] declares a default). *)
Definition new_values (tb : table) (cols : list string) (params : list value)
  : list value :=
  map (fun c => match bound cols params (col_name c) with
                | Some v => v
                | None => VNone
                end) (tbl_cols tb).

Definition is_null (v : value) : bool :=
  match v with
  | VNone => true
  | _ => false
  end.

Fixpoint violates_notnull (cols : list column) (vals : list value) : bool :=
  match cols, vals with
  | c :: cols', v :: vals' =>
      (col_notnull c && is_null v) || violates_notnull cols' vals'
  | _, _ => false
  end.

(** The rowid SQLite picks: one more than the largest the table holds or
    ever held. *)
Definition next_rowid (tb : table) : Z :=
  1 + fold_left (fun m r => Z.max m (fst r)) (tbl_rows tb) (tbl_seq tb).

(** A row with a rowid of the caller's choice goes to its place in rowid
    order, unless that rowid is taken. *)
Fixpoint insert_row (rows : list (Z * list value)) (r : Z * list value)
  : result (list (Z * list value)) :=
  match rows with
  | [] => Ok [r]
  | r' :: rest =>
      if fst r <? fst r' then Ok (r :: rows)
      else if fst r =? fst r'
      then Raise (IntegrityError "UNIQUE constraint failed")
      else match insert_row rest r with
           | Raise e => Raise e
           | Ok rest' => Ok (r' :: rest')
           end
  end.

(** A Python [int] is bound as a 64-bit integer, or not at all. *)
Definition fits_int64 (v : value) : bool :=
  match v with
  | VInt n => (- 2 ^ 63 <=? n) && (n <? 2 ^ 63)
  | _ => true
  end.

Definition with_rows (tb : table) (rows : list (Z * list value)) (seq : Z)
  : table :=
  {| tbl_key := tbl_key tb; tbl_cols := tbl_cols tb;
     tbl_rows := rows; tbl_seq := seq |}.

Definition insert_into (db : database) (t : table_name) (cols : list string)
           (params : list value) : result database :=
  match get_table db t with
  | None => Raise (OperationalError "no such table")
  | Some tb =>
      if negb (forallb (has_column tb) cols)
      then Raise (OperationalError "table has no column named")
      else if negb (Nat.eqb (length cols) (length params))
      then Raise (ProgrammingError "Incorrect number of bindings supplied")
      else if negb (forallb fits_int64 params)
      then Raise (OverflowError
                    "Python int too large to convert to SQLite INTEGER")
      else
        let vals := new_values tb cols params in
        if violates_notnull (tbl_cols tb) vals
        then Raise (IntegrityError "NOT NULL constraint failed")
        else
          let key_value := match tbl_key tb with
                           | Some k => bound cols params k
                           | None => None
                           end in
          match key_value with
          | Some (VStr _) => Raise (IntegrityError "datatype mismatch")
          | Some (VInt n) =>
              match insert_row (tbl_rows tb) (n, vals) with
              | Raise e => Raise e
              | Ok rows =>
                  Ok (set_table db t (with_rows tb rows (Z.max (tbl_seq tb) n)))
              end
          | _ =>
              let n := next_rowid tb in
              Ok (set_table db t (with_rows tb (tbl_rows tb ++ [(n, vals)]) n))
          end
  end.

(** *** SELECT *)

Definition cell (tb : table) (r : Z * list value) (name : string)
  : string * value :=
  match lookup tb r name with
  | Some kv => kv
  | None => (name, VNone)
  end.

(** SELECT cols FROM t: a table scan, in rowid order; a column is
    labelled with its declared name. *)
Definition select_from (db : database) (t : table_name) (cols : list string)
  : result (list row) :=
  match get_table db t with
  | None => Raise (OperationalError "no such table")
  | Some tb =>
      if negb (forallb (has_column tb) cols)
      then Raise (OperationalError "no such column")
      else Ok (map (fun r => map (cell tb r) cols) (tbl_rows tb))
  end.

(** The comparison [=] of SQL: NULL equals nothing. *)
Definition sql_eq (a b : value) : bool :=
  match a, b with
  | VInt n, VInt m => Z.eqb n m
  | VStr s, VStr t => String.eqb s t
  | _, _ => false
  end.

(** The query of [get_attendance_data]:
    SELECT e.title AS event_title, e.event_date AS event_date,
           a.gender, a.province
    FROM attendees AS a JOIN events AS e ON a.event_id = e.id
    evaluated as SQLite does, attendees in the outer loop. *)
Definition join_row (a e : table) (ar er : Z * list value) : row :=
  [("event_title", snd (cell e er "title"));
   ("event_date", snd (cell e er "event_date"));
   cell a ar "gender";
   cell a ar "province"].

(** The inner loop: the events [ers] that the attendee row [ar] joins. *)
Definition join_matches (a e : table) (ar : Z * list value)
           (ers : list (Z * list value)) : list row :=
  flat_map (fun er =>
              if sql_eq (snd (cell a ar "event_id")) (snd (cell e er "id"))
              then [join_row a e ar er]
              else []) ers.

Definition select_attendance_join (db : database) : result (list row) :=
  match get_table db Attendees, get_table db Events with
  | Some a, Some e =>
      if forallb (has_column a) ["gender"; "province"; "event_id"]
         && forallb (has_column e) ["title"; "event_date"; "id"]
      then Ok (flat_map (fun ar => join_matches a e ar (tbl_rows e)) (tbl_rows a))
      else Raise (OperationalError "no such column")
  | _, _ => Raise (OperationalError "no such table")
  end.

(** *** One statement on one database *)

Definition run (lib : library) (st : statement) (db : database)
  : result (database * list row) :=
  match st with
  | CreateTableIfNotExists t key cols =>
      Ok (create_table_if_not_exists db t key cols, [])
  | PragmaTableInfo t => Ok (db, table_info db t)
  | AlterTableRenameColumn t old new =>
      match rename_column lib db t old new with
      | Raise e => Raise e
      | Ok db' => Ok (db', [])
      end
  | InsertInto t cols params =>
      match insert_into db t cols params with
      | Raise e => Raise e
      | Ok db' => Ok (db', [])
      end
  | SelectFrom t cols =>
      match select_from db t cols with
      | Raise e => Raise e
      | Ok rows => Ok (db, rows)
      end
  | SelectAttendanceJoin =>
      match select_attendance_join db with
      | Raise e => Raise e
      | Ok rows => Ok (db, rows)
      end
  end.

(** Before a statement that changes rows, Python's sqlite3 opens a
    transaction; the others run in autocommit unless one is open. *)
Definition opens_transaction (st : statement) : bool :=
  match st with
  | InsertInto _ _ _ => true
  | _ => false
  end.

(** A statement that SQLite cannot compile raises before that transaction
    is opened; binding and running come after. *)
Definition raised_on_prepare (e : exn) : bool :=
  match e with
  | OperationalError _ => true
  | _ => false
  end.

End Sqlite.

(* ================================================================== *)
(** ** The process: the database file, the open connection, the trace *)

Import Sqlite.

(** A connection has its own view of the database: what it wrote inside
    an open transaction is in the view only, until [commit]. *)
Record connection : Type := {
  view : database;
  in_transaction : bool
}.

Record world : Type := {
  sqlite : library;
  disk : database;
  conn : option connection;
  trace : list statement
}.

(** Python code: it may change the world, and it returns or raises.  The
    world survives a raise. *)
Definition py (A : Type) : Type := world -> result A * world.

Definition ret {A : Type} (a : A) : py A := fun w => (Ok a, w).

Definition bind {A B : Type} (c : py A) (k : A -> py B) : py B :=
  fun w =>
    match c w with
    | (Ok a, w') => k a w'
    | (Raise e, w') => (Raise e, w')
    end.

Declare Scope py_scope.
Delimit Scope py_scope with py.
Notation "x <- c ;; k" := (bind c (fun x => k))
  (at level 61, c at next level, right associativity) : py_scope.
Notation "c ;; k" := (bind c (fun _ => k))
  (at level 61, right associativity) : py_scope.
Open Scope py_scope.

(** [try: body / except Exception: handler] *)
Definition try_except {A : Type} (body : py A) (handler : exn -> py A) : py A :=
  fun w =>
    match body w with
    | (Ok a, w') => (Ok a, w')
    | (Raise e, w') => handler e w'
    end.

Definition set_conn (w : world) (c : option connection) : world :=
  {| sqlite := sqlite w; disk := disk w; conn := c; trace := trace w |}.

(** [sqlite3.connect(DB_PATH)]: a connection that sees the file as it is. *)
Definition connect : py unit :=
  fun w =>
    (Ok tt, set_conn w (Some {| view := disk w; in_transaction := false |})).

(** [conn.execute(...)] (or through a cursor), with [fetchall()]. *)
Definition execute (st : statement) : py (list row) :=
  fun w =>
    match conn w with
    | None => (Raise (ProgrammingError "Cannot operate on a closed database."), w)
    | Some c =>
        let tx := in_transaction c || opens_transaction st in
        match run (sqlite w) st (view c) with
        | Raise e =>
            (Raise e,
             {| sqlite := sqlite w; disk := disk w;
                conn := Some {| view := view c;
                                in_transaction :=
                                  in_transaction c
                                  || (opens_transaction st
                                      && negb (raised_on_prepare e)) |};
                trace := trace w ++ [st] |})
        | Ok (db', rows) =>
            (Ok rows,
             {| sqlite := sqlite w;
                disk := if tx then disk w else db';
                conn := Some {| view := db'; in_transaction := tx |};
                trace := trace w ++ [st] |})
        end
    end.

(** [conn.commit()] *)
Definition commit : py unit :=
  fun w =>
    match conn w with
    | None => (Raise (ProgrammingError "Cannot operate on a closed database."), w)
    | Some c =>
        (Ok tt,
         {| sqlite := sqlite w; disk := view c;
            conn := Some {| view := view c; in_transaction := false |};
            trace := trace w |})
    end.

(** [conn.close()]: what was not committed is gone. *)
Definition close : py unit :=
  fun w => (Ok tt, set_conn w None).

(** [os.makedirs(os.path.dirname(DB_PATH), exist_ok=True)]: the directory
    is not part of the model. *)
Definition makedirs : py unit := ret tt.

(** [dict(row)] for a [sqlite3.Row]: every key of the row, with [row[key]],
    which is the first column of that name. *)
Definition row_getitem (r : row) (key : string) : value :=
  match find (fun kv => name_eqb (fst kv) key) r with
  | Some kv => snd kv
  | None => VNone
  end.

Definition dict_of_row (r : row) : record :=
  fold_left (fun d key => dict_setitem String.eqb d key (row_getitem r key))
            (map fst r) [].

(** [col[i]] for a row that is a plain tuple. *)
Definition tuple_index (r : row) (i : nat) : value :=
  match nth_error r i with
  | Some kv => snd kv
  | None => VNone
  end.

(** [x in xs] *)
Definition py_in (x : value) (xs : list value) : bool :=
  existsb (value_eqb x) xs.

(* ================================================================== *)
(** ** The store of [app.py] *)

Definition DB_PATH : string := "data/database.db".

Definition text (name : string) (notnull : bool) : column :=
  {| col_name := name; col_type := "TEXT"; col_notnull := notnull |}.

Definition events_columns : list column :=
  [text "title" true; text "event_date" true; text "location" false;
   text "topic" false].

(** The attendees table also declares FOREIGN KEY (event_id) REFERENCES
    events(id).  SQLite enforces a foreign key only on a connection that
    ran PRAGMA foreign_keys = ON, which no connection of [app.py] does. *)
Definition attendees_columns : list column :=
  [{| col_name := "event_id"; col_type := "INTEGER"; col_notnull := true |};
   text "name" true; text "gender" false; text "province" false].

(** The SQL texts of [app.py]. *)
Definition create_events : statement :=
  CreateTableIfNotExists Events "id" events_columns.
Definition create_attendees : statement :=
  CreateTableIfNotExists Attendees "id" attendees_columns.
Definition pragma_events : statement := PragmaTableInfo Events.
Definition rename_date : statement :=
  AlterTableRenameColumn Events "date" "event_date".
Definition insert_event (title event_date location topic : string) : statement :=
  InsertInto Events ["title"; "event_date"; "location"; "topic"]
    [VStr title; VStr event_date; VStr location; VStr topic].
Definition select_events : statement :=
  SelectFrom Events ["id"; "title"; "event_date"; "location"; "topic"].
Definition insert_attendee (event_id : Z) (name gender province : string)
  : statement :=
  InsertInto Attendees ["event_id"; "name"; "gender"; "province"]
    [VInt event_id; VStr name; VStr gender; VStr province].

(** ['date' in column_names and 'event_date' not in column_names] *)
Definition date_not_event_date (column_names : list value) : bool :=
  py_in (VStr "date") column_names
  && negb (py_in (VStr "event_date") column_names).

Definition init_db : py unit :=
  makedirs ;;
  connect ;;
  execute create_events ;;
  execute create_attendees ;;
  info <- execute pragma_events ;;
  let column_names := map (fun col => tuple_index col 1) info in
  (if date_not_event_date column_names
   then try_except (execute rename_date ;; commit) (fun _ => ret tt)
   else ret tt) ;;
  commit ;;
  close.

Definition add_event (title event_date location topic : string) : py unit :=
  connect ;;
  execute (insert_event title event_date location topic) ;;
  commit ;;
  close.

Definition get_events : py (list record) :=
  connect ;;
  rows <- execute select_events ;;
  close ;;
  ret (map dict_of_row rows).

Definition add_attendee (event_id : Z) (name gender province : string)
  : py unit :=
  connect ;;
  execute (insert_attendee event_id name gender province) ;;
  commit ;;
  close.

Definition get_attendance_data : py (list record) :=
  connect ;;
  rows <- execute SelectAttendanceJoin ;;
  close ;;
  ret (map dict_of_row rows).

(** The world of a process that starts without a database file. *)
Definition fresh (lib : library) : world :=
  {| sqlite := lib; disk := empty_database; conn := None; trace := [] |}.

(** *** Sequences of calls *)

(** The arguments of one [add_event] call and of one [add_attendee] call. *)
Record event_args : Type := {
  arg_title : string;
  arg_event_date : string;
  arg_location : string;
  arg_topic : string
}.

Record attendee_args : Type := {
  arg_event_id : Z;
  arg_name : string;
  arg_gender : string;
  arg_province : string
}.

Inductive call : Type :=
| AddEvent (e : event_args)
| AddAttendee (a : attendee_args).

Definition do_call (c : call) : py unit :=
  match c with
  | AddEvent e =>
      add_event (arg_title e) (arg_event_date e) (arg_location e) (arg_topic e)
  | AddAttendee a =>
      add_attendee (arg_event_id a) (arg_name a) (arg_gender a) (arg_province a)
  end.

(** The calls of a sequence are made one after the other, by a caller
    that goes on when one of them raises (in the application each call
    comes from a form submitted on its own). *)
Definition attempt (c : py unit) : py unit :=
  try_except c (fun _ => ret tt).

Fixpoint do_calls (cs : list call) : py unit :=
  match cs with
  | [] => ret tt
  | c :: rest => attempt (do_call c) ;; do_calls rest
  end.

(** A sequence of [add_event] calls. *)
Definition add_events (es : list event_args) : py unit :=
  do_calls (map AddEvent es).

Fixpoint events_of (cs : list call) : list event_args :=
  match cs with
  | [] => []
  | AddEvent e :: rest => e :: events_of rest
  | AddAttendee _ :: rest => events_of rest
  end.

(** The attendees that the calls registered: an event id that is not a
    64-bit integer cannot be bound, and that call registers nobody. *)
Fixpoint attendees_of (cs : list call) : list attendee_args :=
  match cs with
  | [] => []
  | AddEvent _ :: rest => attendees_of rest
  | AddAttendee a :: rest =>
      if fits_int64 (VInt (arg_event_id a)) then a :: attendees_of rest
      else attendees_of rest
  end.

(* ================================================================== *)
(** ** What the specification expects, in its own words *)

(** *** Initialisation *)

(** The database after the two CREATE TABLE IF NOT EXISTS statements. *)
Definition created (db : database) : database :=
  create_table_if_not_exists
    (create_table_if_not_exists db Events "id" events_columns)
    Attendees "id" attendees_columns.

(** The events table has a column named date and none named event_date. *)
Definition legacy_date (db : database) : Prop :=
  exists tb, events db = Some tb
             /\ In "date" (column_names tb)
             /\ ~ In "event_date" (column_names tb).

(** The database that [init_db] leaves, and the statements it runs. *)
Definition init_result (lib : library) (db : database)
  : database * list statement :=
  let db1 := created db in
  if date_not_event_date
       (map (fun col => tuple_index col 1) (table_info db1 Events))
  then match rename_column lib db1 Events "date" "event_date" with
       | Ok db2 =>
           (db2, [create_events; create_attendees; pragma_events; rename_date])
       | Raise _ =>
           (db1, [create_events; create_attendees; pragma_events; rename_date])
       end
  else (db1, [create_events; create_attendees; pragma_events]).

(** *** Events as [get_events] hands them out *)

Definition event_record (id : Z) (e : event_args) : record :=
  [("id", VInt id); ("title", VStr (arg_title e));
   ("event_date", VStr (arg_event_date e));
   ("location", VStr (arg_location e)); ("topic", VStr (arg_topic e))].

(** The events given, numbered from [id] upwards in the order given. *)
Fixpoint numbered (id : Z) (es : list event_args) : list record :=
  match es with
  | [] => []
  | e :: rest => event_record id e :: numbered (id + 1) rest
  end.

Definition id_of (r : record) : value := dict_get String.eqb r "id" VNone.

(** *** The inner join of attendees to events *)

Definition attendance_record (ev : record) (a : attendee_args) : record :=
  [("event_title", dict_get String.eqb ev "title" VNone);
   ("event_date", dict_get String.eqb ev "event_date" VNone);
   ("gender", VStr (arg_gender a)); ("province", VStr (arg_province a))].

Definition event_with_id (evs : list record) (id : Z) : option record :=
  find (fun ev => value_eqb (id_of ev) (VInt id)) evs.

(** One record for an attendee whose event exists, none otherwise; an
    event comes in only through an attendee. *)
Definition inner_join (evs : list record) (atts : list attendee_args)
  : list record :=
  flat_map (fun a => match event_with_id evs (arg_event_id a) with
                     | Some ev => [attendance_record ev a]
                     | None => []
                     end) atts.

(** The attendee has an event among [evs]. *)
Definition has_event (evs : list record) (a : attendee_args) : bool :=
  match event_with_id evs (arg_event_id a) with
  | Some _ => true
  | None => false
  end.

(** The events other than the one with id [id]. *)
Definition without_event (id : Z) (evs : list record) : list record :=
  filter (fun ev => negb (value_eqb (id_of ev) (VInt id))) evs.

(** *** CSV text *)

Fixpoint string_exists (p : ascii -> bool) (s : string) : bool :=
  match s with
  | EmptyString => false
  | String c rest => p c || string_exists p rest
  end.

(** Every quote character written twice. *)
Fixpoint double_quotes (s : string) : string :=
  match s with
  | EmptyString => EmptyString
  | String c rest =>
      if Ascii.eqb c Csv.quotechar
      then String Csv.quotechar (String Csv.quotechar (double_quotes rest))
      else String c (double_quotes rest)
  end.

(** A field with a delimiter, a quote or a line break goes between
    quotes, with its quotes doubled; any other field is written as it is. *)
Definition csv_field (s : string) : string :=
  if string_exists Csv.special s
  then String Csv.quotechar (double_quotes s ++ String Csv.quotechar EmptyString)
  else s.

(** The fields after the first one, each behind its comma. *)
Fixpoint csv_more (fields : list string) : string :=
  match fields with
  | [] => EmptyString
  | f :: rest => String Csv.delimiter (csv_field f ++ csv_more rest)
  end.

(** A line: the fields between commas, then CR LF.  The line of a single
    empty field is a pair of quotes. *)
Definition csv_line (fields : list string) : string :=
  match fields with
  | [EmptyString] => String Csv.quotechar (String Csv.quotechar EmptyString)
  | _ => String.concat (String Csv.delimiter EmptyString) (map csv_field fields)
  end ++ Csv.lineterminator.

(** The fields of a record under the header [keys]; an absent field is
    empty. *)
Definition csv_fields (keys : list string) (r : record) : list string :=
  map (fun k => Csv.field_text (dict_get String.eqb r k Csv.restval)) keys.

Fixpoint csv_lines (keys : list string) (data : list record) : string :=
  match data with
  | [] => EmptyString
  | r :: rest => csv_line (csv_fields keys r) ++ csv_lines keys rest
  end.

Definition csv_text (data : list record) : string :=
  match data with
  | [] => EmptyString
  | first :: _ =>
      csv_line (dict_keys first) ++ csv_lines (dict_keys first) data
  end.

(** Every key of [r] is one of [fieldnames]. *)
Definition keys_within (fieldnames : list string) (r : record) : bool :=
  forallb (fun k => existsb (String.eqb k) fieldnames) (dict_keys r).

(** No record has a key that the first record lacks. *)
Definition no_extra_keys (data : list record) : bool :=
  match data with
  | [] => true
  | first :: _ => forallb (keys_within (dict_keys first)) data
  end.

(** All records have the key set of the first. *)
Definition same_keys (r1 r2 : record) : bool :=
  forallb (fun k => existsb (String.eqb k) (dict_keys r2)) (dict_keys r1)
  && forallb (fun k => existsb (String.eqb k) (dict_keys r1)) (dict_keys r2).

Definition uniform (data : list record) : bool :=
  match data with
  | [] => true
  | first :: rest => forallb (same_keys first) rest
  end.

(** *** The table text *)

Definition table_row (kv : value * Z) : string :=
  "|" ++ str (fst kv) ++ "|" ++ str_int (snd kv) ++ "|".

Definition table_lines (counts : list (value * Z)) (header1 header2 : string)
  : list string :=
  ("|" ++ header1 ++ "|" ++ header2 ++ "|") :: "|---|---|" :: map table_row counts.

(** *** The world after a call *)

(** After [connect; execute insert; commit; close]: the row is on disk and
    the connection closed; or the INSERT raised, the exception went up
    from [execute], and the disk is as it was. *)
Definition after_insert (w : world) (st : statement) (r : result database)
  : result unit * world :=
  match r with
  | Ok db' =>
      (Ok tt,
       {| sqlite := sqlite w; disk := db'; conn := None;
          trace := trace w ++ [st] |})
  | Raise e =>
      (Raise e,
       {| sqlite := sqlite w; disk := disk w;
          conn := Some {| view := disk w;
                          in_transaction := negb (raised_on_prepare e) |};
          trace := trace w ++ [st] |})
  end.

(** After [connect; execute select; close]: the disk is as it was. *)
Definition after_select (w : world) (st : statement) (r : result (list row))
  : result (list record) * world :=
  match r with
  | Ok rows =>
      (Ok (map dict_of_row rows),
       {| sqlite := sqlite w; disk := disk w; conn := None;
          trace := trace w ++ [st] |})
  | Raise e =>
      (Raise e,
       {| sqlite := sqlite w; disk := disk w;
          conn := Some {| view := disk w; in_transaction := false |};
          trace := trace w ++ [st] |})
  end.

(** *** The store that holds given events and attendees *)

Fixpoint number_rows (id : Z) (rows : list (list value))
  : list (Z * list value) :=
  match rows with
  | [] => []
  | r :: rest => (id, r) :: number_rows (id + 1) rest
  end.

Definition event_values (e : event_args) : list value :=
  [VStr (arg_title e); VStr (arg_event_date e); VStr (arg_location e);
   VStr (arg_topic e)].

Definition attendee_values (a : attendee_args) : list value :=
  [VInt (arg_event_id a); VStr (arg_name a); VStr (arg_gender a);
   VStr (arg_province a)].

Definition events_table (es : list event_args) : table :=
  {| tbl_key := Some "id"; tbl_cols := events_columns;
     tbl_rows := number_rows 1 (map event_values es);
     tbl_seq := Z.of_nat (length es) |}.

Definition attendees_table (atts : list attendee_args) : table :=
  {| tbl_key := Some "id"; tbl_cols := attendees_columns;
     tbl_rows := number_rows 1 (map attendee_values atts);
     tbl_seq := Z.of_nat (length atts) |}.

Definition store (es : list event_args) (atts : list attendee_args) : database :=
  {| events := Some (events_table es); attendees := Some (attendees_table atts) |}.

(** *** Sample data *)

Definition world_of (lib : library) (db : database) : world :=
  {| sqlite := lib; disk := db; conn := None; trace := [] |}.

Definition sqlite_new : library := {| rename_column_supported := true |}.
Definition sqlite_old : library := {| rename_column_supported := false |}.

Definition soil_day : event_args :=
  {| arg_title := "Soil Health Day"; arg_event_date := "2024-03-01";
     arg_location := "Nairobi"; arg_topic := "soil" |}.

Definition seed_fair : event_args :=
  {| arg_title := "Seed Fair"; arg_event_date := "2024-04-02";
     arg_location := "Kiambu"; arg_topic := "seed" |}.

Definition amina (event_id : Z) : attendee_args :=
  {| arg_event_id := event_id; arg_name := "Amina"; arg_gender := "Female";
     arg_province := "Nairobi" |}.

Definition kofi (event_id : Z) : attendee_args :=
  {| arg_event_id := event_id; arg_name := "Kofi"; arg_gender := "Male";
     arg_province := "Kiambu" |}.

(** Two events; an attendee of the first, and one of an event that does
    not exist. *)
Definition sample_calls : list call :=
  [AddEvent soil_day; AddEvent seed_fair;
   AddAttendee (amina 1); AddAttendee (kofi 7)].

(** A database of an earlier version: the events table has a date column. *)
Definition legacy_database : database :=
  {| events :=
       Some {| tbl_key := Some "id";
               tbl_cols := [text "title" true; text "date" true;
                            text "location" false; text "topic" false];
               tbl_rows := [(1, [VStr "Field day"; VStr "2023-05-01";
                                 VStr "Thika"; VNone])];
               tbl_seq := 1 |};
     attendees := None |}.

(** *** More of the same: legacy tables, totals, keys *)

(** The events table of the earlier version, with any rows. *)
Definition legacy_columns : list column :=
  [text "title" true; text "date" true; text "location" false;
   text "topic" false].

Definition legacy_events (rows : list (Z * list value)) (seq : Z) : table :=
  {| tbl_key := Some "id"; tbl_cols := legacy_columns;
     tbl_rows := rows; tbl_seq := seq |}.

Definition current_events (rows : list (Z * list value)) (seq : Z) : table :=
  {| tbl_key := Some "id"; tbl_cols := events_columns;
     tbl_rows := rows; tbl_seq := seq |}.

(** The sum of the counts of a mapping. *)
Definition total {K : Type} (counts : list (K * Z)) : Z :=
  fold_right Z.add 0 (map snd counts).

(** The keys of an attendance record. *)
Definition attendance_keys : list string :=
  ["event_title"; "event_date"; "gender"; "province"].

(** The values of a field that every record has. *)
Definition field_values (field : string) (data : list record) : list value :=
  map (fun item => dict_get String.eqb item field VNone) data.

(** Some record lacks the field. *)
Definition lacks (field : string) (data : list record) : bool :=
  existsb (fun item => negb (dict_contains String.eqb item field)) data.

(* ================================================================== *)
(** ** The page: [main] *)

(** What [main] asks Streamlit to show, call by call. *)
Inductive element : Type :=
| st_set_page_config (page_title layout : string)
| st_title (body : string)
| st_tabs (labels : list string)
| st_header (body : string)
| st_form (key : string)
| st_text_input (label : string)
| st_date_input (label : string)
| st_selectbox (label : string) (options : list string)
| st_form_submit_button (label : string)
| st_success (body : string)
| st_error (body : string)
| st_info (body : string)
| st_metric (label : string) (shown : Z)
| st_subheader (body : string)
| st_markdown (body : string)
| st_download_button (label data file_name mime : string).

(** A [datetime.date] (year 1 to 9999) and its [isoformat()]. *)
Record date : Type := { year : Z; month : Z; day : Z }.

Fixpoint zeros (n : nat) : string :=
  match n with
  | O => EmptyString
  | S k => String "0" (zeros k)
  end.

Definition zfill (width : nat) (s : string) : string :=
  zeros (width - String.length s) ++ s.

Definition isoformat (d : date) : string :=
  zfill 4 (str_int (year d)) ++ "-" ++ zfill 2 (str_int (month d)) ++ "-"
  ++ zfill 2 (str_int (day d)).

(** What the user has entered in the widgets when the script runs.  A
    select box holds the index of the chosen option, the first option to
    begin with. *)
Record session : Type := {
  in_title : string;
  in_date : date;
  in_location : string;
  in_topic : string;
  in_submitted : bool;
  in_selected_event : nat;
  in_attendee_name : string;
  in_gender : nat;
  in_province : string;
  in_submit_attendee : bool
}.

(** The script: Python code that also shows elements.  What was shown
    stays shown when the script raises. *)
Definition script (A : Type) : Type :=
  list element -> world -> result A * list element * world.

Definition script_ret {A : Type} (a : A) : script A := fun out w => (Ok a, out, w).

Definition script_bind {A B : Type} (c : script A) (k : A -> script B) : script B :=
  fun out w =>
    match c out w with
    | (Ok a, out', w') => k a out' w'
    | (Raise e, out', w') => (Raise e, out', w')
    end.

Declare Scope script_scope.
Delimit Scope script_scope with script.
Notation "x <- c ;; k" := (script_bind c (fun x => k))
  (at level 61, c at next level, right associativity) : script_scope.
Notation "c ;; k" := (script_bind c (fun _ => k))
  (at level 61, right associativity) : script_scope.

(** A call of the store, or of anything that does not show. *)
Definition call_py {A : Type} (c : py A) : script A :=
  fun out w => let '(r, w') := c w in (r, out, w').

Definition call_result {A : Type} (r : result A) : script A :=
  fun out w => (r, out, w).

Definition show (e : element) : script unit :=
  fun out w => (Ok tt, (out ++ [e])%list, w).

Definition text_input (label entered : string) : script string :=
  (show (st_text_input label) ;; script_ret entered)%script.

Definition date_input (label : string) (entered : date) : script date :=
  (show (st_date_input label) ;; script_ret entered)%script.

Definition selectbox (label : string) (options : list string) (chosen : nat)
  : script string :=
  (show (st_selectbox label options) ;;
   script_ret (nth chosen options (hd EmptyString options)))%script.

Definition form_submit_button (label : string) (pressed : bool) : script bool :=
  (show (st_form_submit_button label) ;; script_ret pressed)%script.

(** [if s:] for a string *)
Definition nonempty (s : string) : bool :=
  match s with
  | EmptyString => false
  | String _ _ => true
  end.

(** [add_attendee], as Python runs it: the event id is bound as it comes,
    whatever it is. *)
Definition add_attendee_any (event_id : value) (name gender province : string)
  : py unit :=
  connect ;;
  execute (InsertInto Attendees ["event_id"; "name"; "gender"; "province"]
             [event_id; VStr name; VStr gender; VStr province]) ;;
  commit ;;
  close.

(** [{f"{e['title']} ({e['event_date']})": e['id'] for e in events}] *)
Definition option_of (e : record) : result (string * value) :=
  match getitem e "title" with
  | Raise x => Raise x
  | Ok title =>
      match getitem e "event_date" with
      | Raise x => Raise x
      | Ok event_date =>
          match getitem e "id" with
          | Raise x => Raise x
          | Ok id => Ok (str title ++ " (" ++ str event_date ++ ")", id)
          end
      end
  end.

Fixpoint event_options_from (options : record) (events : list record)
  : result record :=
  match events with
  | [] => Ok options
  | e :: rest =>
      match option_of e with
      | Raise x => Raise x
      | Ok (label, id) =>
          event_options_from (dict_setitem String.eqb options label id) rest
      end
  end.

Definition event_options (events : list record) : result record :=
  event_options_from [] events.

Definition genders : list string :=
  ["Male"; "Female"; "Other"; "Prefer not to say"].

(** Tab 1: Add Event *)
Definition add_event_tab (s : session) : script unit :=
  (show (st_header "Add New Event") ;;
   show (st_form "event_form") ;;
   title <- text_input "Event Title" (in_title s) ;;
   date_value <- date_input "Event Date" (in_date s) ;;
   location <- text_input "Location" (in_location s) ;;
   topic <- text_input "Topic (optional)" (in_topic s) ;;
   submitted <- form_submit_button "Add Event" (in_submitted s) ;;
   if submitted
   then if nonempty title
        then call_py (add_event title (isoformat date_value) location topic) ;;
             show (st_success "Event added successfully.")
        else show (st_error "Please provide an event title.")
   else script_ret tt)%script.

(** Tab 2: Register Attendee *)
Definition register_attendee_tab (s : session) : script unit :=
  (show (st_header "Register Attendee") ;;
   events <- call_py get_events ;;
   match events with
   | [] => show (st_info "Please add an event first.")
   | _ :: _ =>
       options <- call_result (event_options events) ;;
       show (st_form "attendee_form") ;;
       selected_event <- selectbox "Select Event" (dict_keys options)
                                   (in_selected_event s) ;;
       attendee_name <- text_input "Attendee Name" (in_attendee_name s) ;;
       gender <- selectbox "Gender" genders (in_gender s) ;;
       province <- text_input "Province" (in_province s) ;;
       submit_attendee <- form_submit_button "Register Attendee"
                                             (in_submit_attendee s) ;;
       if submit_attendee
       then if nonempty attendee_name
            then event_id <- call_result (getitem options selected_event) ;;
                 call_py (add_attendee_any event_id attendee_name gender
                                           province) ;;
                 show (st_success "Attendee registered successfully.")
            else show (st_error "Please provide the attendee's name.")
       else script_ret tt
   end)%script.

(** Tab 3: View Reports *)
Definition view_reports_tab : script unit :=
  (show (st_header "Attendance & Impact Reports") ;;
   data <- call_py get_attendance_data ;;
   match data with
   | [] => show (st_info "No attendance data available.")
   | _ :: _ =>
       events <- call_py get_events ;;
       let total_events := Z.of_nat (length events) in
       let total_attendees := Z.of_nat (length data) in
       show (st_metric "Total Events" total_events) ;;
       show (st_metric "Total Attendees" total_attendees) ;;
       by_event <- call_result (events_counts data) ;;
       by_gender <- call_result (gender_counts data) ;;
       by_province <- call_result (province_counts data) ;;
       show (st_subheader "Attendance by Event") ;;
       show (st_markdown (markdown_table by_event "Event" "Count")) ;;
       show (st_subheader "Attendance by Gender") ;;
       show (st_markdown (markdown_table by_gender "Gender" "Count")) ;;
       show (st_subheader "Attendance by Province") ;;
       show (st_markdown (markdown_table by_province "Province" "Count")) ;;
       csv_data <- call_result (export_csv data) ;;
       show (st_download_button "Download Attendance CSV" csv_data
                                "attendance_data.csv" "text/csv")
   end)%script.

Definition main (s : session) : script unit :=
  (show (st_set_page_config "AgriImpact Insight" "wide") ;;
   show (st_title "AgriImpact Insight (No Pandas)") ;;
   call_py init_db ;;
   show (st_tabs ["Add Event"; "Register Attendee"; "View Reports"]) ;;
   add_event_tab s ;;
   register_attendee_tab s ;;
   view_reports_tab)%script.

(** The script runs again on every interaction, on an empty page; the
    database file is what one run hands to the next, also when a run
    raised. *)
Definition world_after (r : result unit * list element * world) : world :=
  snd r.

Definition shown (r : result unit * list element * world) : list element :=
  snd (fst r).

Definition returned (r : result unit * list element * world) : result unit :=
  fst (fst r).

Fixpoint script_runs (ss : list session) (w : world) : world :=
  match ss with
  | [] => w
  | s :: rest => script_runs rest (world_after (main s [] w))
  end.

(** *** What a run of the script stores and shows *)

(** The label of an event in the select box. *)
Definition label_of (e : event_args) : string :=
  arg_title e ++ " (" ++ arg_event_date e ++ ")".

(** The labels with the ids, for events numbered from [n]. *)
Fixpoint labelled (n : Z) (es : list event_args) : list (string * value) :=
  match es with
  | [] => []
  | e :: rest => (label_of e, VInt n) :: labelled (n + 1) rest
  end.

Definition options_of (es : list event_args) : record :=
  fold_left (fun d kv => dict_setitem String.eqb d (fst kv) (snd kv))
            (labelled 1 es) [].

(** The label that the select box returns, and the id behind it. *)
Definition selected_label (es : list event_args) (s : session) : string :=
  nth (in_selected_event s) (dict_keys (options_of es))
      (hd EmptyString (dict_keys (options_of es))).

Definition selected_id (es : list event_args) (s : session) : value :=
  dict_get String.eqb (options_of es) (selected_label es s) VNone.

(** The event of the form, when the form is submitted with a title. *)
Definition event_of (s : session) : event_args :=
  {| arg_title := in_title s; arg_event_date := isoformat (in_date s);
     arg_location := in_location s; arg_topic := in_topic s |}.

Definition new_events (s : session) : list event_args :=
  if in_submitted s && nonempty (in_title s) then [event_of s] else [].

(** The attendee of the form, when there is an event to choose, the form
    is submitted with a name, and the id can be bound. *)
Definition registered (es : list event_args) (s : session)
  : list attendee_args :=
  match es with
  | [] => []
  | _ :: _ =>
      if in_submit_attendee s && nonempty (in_attendee_name s)
      then match selected_id es s with
           | VInt id =>
               if fits_int64 (VInt id)
               then [{| arg_event_id := id;
                        arg_name := in_attendee_name s;
                        arg_gender := nth (in_gender s) genders
                                          (hd EmptyString genders);
                        arg_province := in_province s |}]
               else []
           | _ => []
           end
      else []
  end.

(** What tab 1 shows. *)
Definition add_event_shown (s : session) : list element :=
  [st_header "Add New Event"; st_form "event_form";
   st_text_input "Event Title"; st_date_input "Event Date";
   st_text_input "Location"; st_text_input "Topic (optional)";
   st_form_submit_button "Add Event"]
  ++ (if in_submitted s
      then if nonempty (in_title s)
           then [st_success "Event added successfully."]
           else [st_error "Please provide an event title."]
      else []).

(** What tab 2 shows when the store holds the events [es]. *)
Definition register_shown (es : list event_args) (s : session)
  : list element :=
  st_header "Register Attendee"
  :: match es with
     | [] => [st_info "Please add an event first."]
     | _ :: _ =>
         [st_form "attendee_form";
          st_selectbox "Select Event" (dict_keys (options_of es));
          st_text_input "Attendee Name";
          st_selectbox "Gender" genders;
          st_text_input "Province";
          st_form_submit_button "Register Attendee"]
         ++ (if in_submit_attendee s
             then if nonempty (in_attendee_name s)
                  then match registered es s with
                       | [] => []
                       | _ :: _ => [st_success "Attendee registered successfully."]
                       end
                  else [st_error "Please provide the attendee's name."]
             else [])
     end.

(** What tab 3 shows for the attendance records [data] and [n] events. *)
Definition report_shown (n : nat) (data : list record) : list element :=
  st_header "Attendance & Impact Reports"
  :: match data with
     | [] => [st_info "No attendance data available."]
     | _ :: _ =>
         [st_metric "Total Events" (Z.of_nat n);
          st_metric "Total Attendees" (Z.of_nat (length data));
          st_subheader "Attendance by Event";
          st_markdown (markdown_table
                         (Counter value_eqb (field_values "event_title" data))
                         "Event" "Count");
          st_subheader "Attendance by Gender";
          st_markdown (markdown_table
                         (Counter value_eqb (field_values "gender" data))
                         "Gender" "Count");
          st_subheader "Attendance by Province";
          st_markdown (markdown_table
                         (Counter value_eqb (field_values "province" data))
                         "Province" "Count");
          st_download_button "Download Attendance CSV" (csv_text data)
                             "attendance_data.csv" "text/csv"]
     end.

(** The page top. *)
Definition page_top : list element :=
  [st_set_page_config "AgriImpact Insight" "wide";
   st_title "AgriImpact Insight (No Pandas)";
   st_tabs ["Add Event"; "Register Attendee"; "View Reports"]].

(** The events and the attendees after a run that started with [es] and
    [atts], and the page of that run. *)
Definition events_after (es : list event_args) (s : session)
  : list event_args :=
  es ++ new_events s.

Definition attendees_after (es : list event_args) (atts : list attendee_args)
           (s : session) : list attendee_args :=
  atts ++ registered (events_after es s) s.

Definition page_shown (es : list event_args) (atts : list attendee_args)
           (s : session) : list element :=
  page_top ++ add_event_shown s ++ register_shown (events_after es s) s
  ++ report_shown (length (events_after es s))
       (inner_join (numbered 1 (events_after es s)) (attendees_after es atts s)).

(** The caller contract of the store: titles and names are not empty,
    and every attendee refers to an event that exists. *)
Definition valid_event (e : event_args) : Prop := arg_title e <> EmptyString.

Definition valid_attendee (n : nat) (a : attendee_args) : Prop :=
  arg_name a <> EmptyString /\ 1 <= arg_event_id a <= Z.of_nat n.

(** Sample sessions: both forms filled in and submitted; and the event
    form submitted without a title. *)
Definition first_of_march : date := {| year := 2024; month := 3; day := 1 |}.

Definition filled_in : session :=
  {| in_title := "Soil Health Day"; in_date := first_of_march;
     in_location := "Nairobi"; in_topic := "soil"; in_submitted := true;
     in_selected_event := 0; in_attendee_name := "Amina"; in_gender := 1;
     in_province := "Nairobi"; in_submit_attendee := true |}.

Definition no_title : session :=
  {| in_title := EmptyString; in_date := first_of_march;
     in_location := "Nairobi"; in_topic := "soil"; in_submitted := true;
     in_selected_event := 0; in_attendee_name := EmptyString; in_gender := 1;
     in_province := "Nairobi"; in_submit_attendee := false |}.

(* ================================================================== *)
(** ** Reading CSV text back *)

(** The header and the rows of fields that the text of [export_csv]
    stands for. *)
Definition csv_table (data : list record) : list (list string) :=
  match data with
  | [] => []
  | first :: _ => dict_keys first :: map (csv_fields (dict_keys first)) data
  end.

(** A reader for the text that the writer produces ([app.py] has none; it
    is here to show that the text determines the table).  First the text
    becomes tokens: a character of a field, the opening quote of a quoted
    field, a delimiter between fields, the end of a line. *)
Inductive token : Type :=
| Char (c : ascii)
| Open
| Sep
| Eol.

Inductive reading : Type := Plain | Quoted | QuoteSeen.

Fixpoint lex (text : string) (mode : reading) : list token :=
  match text with
  | EmptyString => []
  | String c rest =>
      let plain :=
        if Ascii.eqb c Csv.delimiter then Sep :: lex rest Plain
        else if Ascii.eqb c Csv.quotechar then Open :: lex rest Quoted
        else if Ascii.eqb c "013" then lex rest Plain
        else if Ascii.eqb c "010" then Eol :: lex rest Plain
        else Char c :: lex rest Plain in
      match mode with
      | Plain => plain
      | Quoted =>
          if Ascii.eqb c Csv.quotechar then lex rest QuoteSeen
          else Char c :: lex rest Quoted
      | QuoteSeen =>
          if Ascii.eqb c Csv.quotechar then Char c :: lex rest Quoted
          else plain
      end
  end.

(** The tokens of each line. *)
Fixpoint split_rows (tokens : list token) : list (list token) :=
  match tokens with
  | [] => []
  | Eol :: rest => [] :: split_rows rest
  | t :: rest =>
      match split_rows rest with
      | [] => [[t]]
      | row :: rows => (t :: row) :: rows
      end
  end.

(** The fields of a line that has tokens. *)
Fixpoint fields_from (tokens : list token) : list string :=
  match tokens with
  | [] => [EmptyString]
  | Sep :: rest => EmptyString :: fields_from rest
  | Char c :: rest =>
      match fields_from rest with
      | [] => [String c EmptyString]
      | f :: fs => String c f :: fs
      end
  | _ :: rest => fields_from rest
  end.

(** A line without a token has no field. *)
Definition row_of (tokens : list token) : list string :=
  match tokens with
  | [] => []
  | _ :: _ => fields_from tokens
  end.

Definition read_csv (text : string) : list (list string) :=
  map row_of (split_rows (lex text Plain)).

(** The tokens of a field and of a line, as the writer writes them. *)
Fixpoint chars (s : string) : list token :=
  match s with
  | EmptyString => []
  | String c rest => Char c :: chars rest
  end.

Definition field_tokens (f : string) : list token :=
  if string_exists Csv.special f then Open :: chars f else chars f.

Fixpoint more_tokens (fields : list string) : list token :=
  match fields with
  | [] => []
  | f :: rest => Sep :: field_tokens f ++ more_tokens rest
  end.

Definition line_tokens (fields : list string) : list token :=
  match fields with
  | [] => []
  | [EmptyString] => [Open]
  | f :: rest => field_tokens f ++ more_tokens rest
  end.

(* ================================================================== *)
(** * Properties *)

(** ** Strings and lists *)

Lemma append_nil_r (s : string) : (s ++ EmptyString)%string = s.
Proof. induction s as [|c s IH]; simpl; [reflexivity | now rewrite IH]. Qed.

Lemma append_assoc (a b c : string) :
  ((a ++ b) ++ c)%string = (a ++ (b ++ c))%string.
Proof. induction a as [|x a IH]; simpl; [reflexivity | now rewrite IH]. Qed.

Lemma filter_twice {A : Type} (p q : A -> bool) (l : list A) :
  filter p (filter q l) = filter (fun y => q y && p y) l.
Proof.
  induction l as [|x l IH]; simpl; [reflexivity|].
  destruct (q x); simpl; [destruct (p x)|]; now rewrite IH.
Qed.

Lemma value_eqb_eq (a b : value) : value_eqb a b = true <-> a = b.
Proof.
  destruct a, b; simpl; split; intros H; try discriminate; try reflexivity.
  - apply Z.eqb_eq in H. now subst.
  - inversion H. apply Z.eqb_refl.
  - apply String.eqb_eq in H. now subst.
  - inversion H. apply String.eqb_refl.
Qed.

(** ** Dicts and Counter *)

Section DictFacts.
Context {K : Type}.
Variable eqb : K -> K -> bool.
Hypothesis eqb_eq : forall a b, eqb a b = true <-> a = b.

Lemma eqb_refl (a : K) : eqb a a = true.
Proof. now apply eqb_eq. Qed.

Lemma eqb_sym (a b : K) : eqb a b = eqb b a.
Proof.
  destruct (eqb a b) eqn:E, (eqb b a) eqn:F; try reflexivity.
  - apply eqb_eq in E. subst. now rewrite eqb_refl in F.
  - apply eqb_eq in F. subst. now rewrite eqb_refl in E.
Qed.

Lemma dict_contains_keys {V : Type} (d : list (K * V)) (k : K) :
  dict_contains eqb d k = existsb (fun x => eqb x k) (dict_keys d).
Proof.
  induction d as [|[k' v] d IH]; simpl; [reflexivity | now rewrite IH].
Qed.

Lemma dict_get_setitem {V : Type} (d : list (K * V)) (k k' : K) (v dflt : V) :
  dict_get eqb (dict_setitem eqb d k v) k' dflt
  = if eqb k k' then v else dict_get eqb d k' dflt.
Proof.
  induction d as [|[x w] d IH]; simpl.
  - reflexivity.
  - destruct (eqb x k) eqn:E; simpl.
    + apply eqb_eq in E. subst x. now destruct (eqb k k').
    + destruct (eqb x k') eqn:F; [|exact IH].
      apply eqb_eq in F. subst x. now rewrite eqb_sym, E.
Qed.

Lemma dict_keys_setitem {V : Type} (d : list (K * V)) (k : K) (v : V) :
  dict_keys (dict_setitem eqb d k v)
  = if dict_contains eqb d k then dict_keys d else (dict_keys d ++ [k])%list.
Proof.
  induction d as [|[x w] d IH]; simpl; [reflexivity|].
  destruct (eqb x k) eqn:E; simpl; [reflexivity|].
  rewrite IH. now destruct (dict_contains eqb d k).
Qed.

(** The count of [k] after more elements: what it was, plus the
    occurrences of [k] among them. *)
Lemma count_elements_get (l : list K) (acc : list (K * Z)) (k : K) :
  dict_get eqb (fold_left (count_element eqb) l acc) k 0
  = dict_get eqb acc k 0 + occurrences eqb l k.
Proof.
  revert acc. induction l as [|x l IH]; intros acc; simpl; [lia|].
  rewrite IH. unfold count_element. rewrite dict_get_setitem.
  destruct (eqb x k) eqn:E; [|lia].
  apply eqb_eq in E. subst x. lia.
Qed.

(** The keys after more elements: the old keys, then the new elements in
    first-seen order. *)
Lemma count_elements_keys (l : list K) (acc : list (K * Z)) :
  dict_keys (fold_left (count_element eqb) l acc)
  = (dict_keys acc ++ filter (unseen eqb (dict_keys acc)) (first_seen eqb l))%list.
Proof.
  revert acc. induction l as [|x l IH]; intros acc; simpl.
  - now rewrite app_nil_r.
  - rewrite IH. unfold count_element at 1 2. rewrite dict_keys_setitem.
    rewrite dict_contains_keys. unfold unseen at 2.
    destruct (existsb (fun x0 => eqb x0 x) (dict_keys acc)) eqn:E; simpl.
    + f_equal. rewrite filter_twice. apply filter_ext_in. intros y _.
      destruct (eqb x y) eqn:F; simpl; [|reflexivity].
      apply eqb_eq in F. subst y. unfold unseen. now rewrite E.
    + rewrite <- app_assoc. simpl. do 2 f_equal.
      rewrite filter_twice. apply filter_ext. intros y.
      unfold unseen. rewrite existsb_app. simpl. rewrite orb_false_r.
      rewrite negb_orb. apply andb_comm.
Qed.

Lemma first_seen_NoDup (l : list K) : NoDup (first_seen eqb l).
Proof.
  induction l as [|x l IH]; simpl; constructor.
  - rewrite filter_In. intros [_ H]. now rewrite eqb_refl in H.
  - now apply NoDup_filter.
Qed.

Lemma count_repeat (v : K) (n : nat) (c : Z) :
  fold_left (count_element eqb) (repeat v n) [(v, c)] = [(v, c + Z.of_nat n)].
Proof.
  revert c. induction n as [|n IH]; intros c.
  - simpl. now rewrite Z.add_0_r.
  - cbn [repeat fold_left]. unfold count_element at 2. simpl.
    rewrite eqb_refl. rewrite IH. do 2 f_equal. lia.
Qed.
End DictFacts.

(** The projection [item[field] for item in data] when every record has
    the field: the values, in record order. *)
Lemma project_values (field : string) (data : list record) (vs : list value) :
  Forall2 (fun item v => getitem item field = Ok v) data vs ->
  project field data = Ok vs.
Proof.
  induction 1 as [|item v data vs H _ IH]; [reflexivity|].
  cbn [project]. now rewrite H, IH.
Qed.

Lemma project_one_value (field : string) (data : list record) (v : value) :
  Forall (fun item => getitem item field = Ok v) data ->
  project field data = Ok (repeat v (length data)).
Proof.
  intros H. apply project_values.
  induction H as [|item data H _ IH]; cbn [length repeat]; now constructor.
Qed.

(** C3.  The count of the report, [Counter(item[field] for item in data)],
    over records that all have the field: it returns a mapping whose keys
    are the distinct values of the field in first-seen order of the
    records, each once, and in which the count of a key is the number of
    records with that value (0 for a value that does not occur).  Over no
    record it is the empty mapping; over [n] records (n at least 1) that
    all have the value [v] it is [{v: n}].  The three counts of the report
    are this count by event_title, gender and province.  [Counter] itself
    has these properties over any sequence of values. *)
Theorem C3_counter_counts_in_first_seen_order :
  (forall (field : string) (data : list record) (vs : list value),
      Forall2 (fun item v => getitem item field = Ok v) data vs ->
      exists counts,
        count_by field data = Ok counts
        /\ dict_keys counts = first_seen value_eqb vs
        /\ NoDup (dict_keys counts)
        /\ (forall k, dict_get value_eqb counts k 0 = occurrences value_eqb vs k))
  /\ (forall field, count_by field [] = Ok [])
  /\ (forall (field : string) (data : list record) (v : value),
         data <> [] ->
         Forall (fun item => getitem item field = Ok v) data ->
         count_by field data = Ok [(v, Z.of_nat (length data))])
  /\ (forall data,
         events_counts data = count_by "event_title" data
         /\ gender_counts data = count_by "gender" data
         /\ province_counts data = count_by "province" data)
  /\ (forall l : list value,
         dict_keys (Counter value_eqb l) = first_seen value_eqb l
         /\ NoDup (dict_keys (Counter value_eqb l)))
  /\ (forall (l : list value) (k : value),
         dict_get value_eqb (Counter value_eqb l) k 0 = occurrences value_eqb l k)
  /\ Counter value_eqb [] = []
  /\ (forall (v : value) (n : nat),
         Counter value_eqb (repeat v (S n)) = [(v, Z.of_nat (S n))]).
Proof.
  assert (keys : forall l : list value,
             dict_keys (Counter value_eqb l) = first_seen value_eqb l).
  { intros l. unfold Counter.
    rewrite (count_elements_keys value_eqb value_eqb_eq). simpl.
    rewrite (filter_ext _ (fun _ => true)) by reflexivity.
    apply filter_true. }
  assert (counts : forall (l : list value) (k : value),
             dict_get value_eqb (Counter value_eqb l) k 0
             = occurrences value_eqb l k).
  { intros l k. unfold Counter.
    now rewrite (count_elements_get value_eqb value_eqb_eq). }
  assert (one : forall (v : value) (n : nat),
             Counter value_eqb (repeat v (S n)) = [(v, Z.of_nat (S n))]).
  { intros v n. unfold Counter. cbn [repeat fold_left].
    unfold count_element at 2. simpl.
    rewrite (count_repeat value_eqb value_eqb_eq). do 2 f_equal. lia. }
  split; [|split; [|split; [|split; [|split; [|split; [|split]]]]]].
  - intros field data vs H. exists (Counter value_eqb vs).
    unfold count_by. rewrite (project_values field data vs H).
    split; [reflexivity|]. split; [apply keys|]. split; [|apply counts].
    rewrite keys. apply (first_seen_NoDup value_eqb value_eqb_eq).
  - reflexivity.
  - intros field data v N H. unfold count_by.
    rewrite (project_one_value field data v H).
    destruct data as [|item data]; [congruence|].
    cbn [length]. now rewrite one.
  - intros data. repeat split.
  - intros l. split; [apply keys|].
    rewrite keys. apply (first_seen_NoDup value_eqb value_eqb_eq).
  - apply counts.
  - reflexivity.
  - apply one.
Qed.

Lemma C3_counter_counts_in_first_seen_order_witness :
  (exists counts,
      gender_counts
        [[("event_title", VStr "Soil Health Day"); ("gender", VStr "Female")];
         [("event_title", VStr "Seed Fair"); ("gender", VStr "Male")];
         [("event_title", VStr "Seed Fair"); ("gender", VStr "Female")]]
      = Ok counts
      /\ dict_keys counts = [VStr "Female"; VStr "Male"]
      /\ dict_get value_eqb counts (VStr "Female") 0 = 2
      /\ dict_get value_eqb counts (VStr "Other") 0 = 0)
  /\ events_counts
       [[("event_title", VStr "Seed Fair"); ("gender", VStr "Male")];
        [("event_title", VStr "Seed Fair"); ("gender", VStr "Female")]]
     = Ok [(VStr "Seed Fair", 2)].
Proof.
  split.
  - destruct (proj1 C3_counter_counts_in_first_seen_order "gender"
                [[("event_title", VStr "Soil Health Day"); ("gender", VStr "Female")];
                 [("event_title", VStr "Seed Fair"); ("gender", VStr "Male")];
                 [("event_title", VStr "Seed Fair"); ("gender", VStr "Female")]]
                [VStr "Female"; VStr "Male"; VStr "Female"])
      as (counts & R & K & _ & C).
    + repeat constructor.
    + exists counts. split; [exact R|]. split; [exact K|].
      split; [exact (C (VStr "Female")) | exact (C (VStr "Other"))].
  - refine (proj1 (proj2 (proj2 C3_counter_counts_in_first_seen_order))
              "event_title" _ (VStr "Seed Fair") _ _).
    + discriminate.
    + repeat constructor.
Defined.

(** ** markdown_table *)

Lemma markdown_rows_spec (items : list (value * Z)) (lines : list string) :
  markdown_rows lines items = (lines ++ map table_row items)%list.
Proof.
  revert lines. induction items as [|[k v] items IH]; intros lines; simpl.
  - now rewrite app_nil_r.
  - rewrite IH, <- app_assoc. reflexivity.
Qed.

(** C4.  [markdown_table] is the header row, the separator row and one row
    per entry in the mapping's order, joined by newlines; for
    [{"X": 3, "Y": 1}] with the headers Event and Count these are the four
    lines of the specification. *)
Theorem C4_markdown_table_lines :
  (forall (counts : list (value * Z)) (header1 header2 : string),
      markdown_table counts header1 header2
      = String.concat newline (table_lines counts header1 header2))
  /\ markdown_table [(VStr "X", 3); (VStr "Y", 1)] "Event" "Count"
     = String.concat newline ["|Event|Count|"; "|---|---|"; "|X|3|"; "|Y|1|"].
Proof.
  split.
  - intros counts header1 header2. unfold markdown_table, table_lines.
    now rewrite markdown_rows_spec.
  - reflexivity.
Qed.


(** ** The CSV writer *)

Lemma join_append_data_spec (field : string) (quoted : bool) :
  Csv.join_append_data field quoted
  = (double_quotes field, quoted || string_exists Csv.special field).
Proof.
  revert quoted. induction field as [|c field IH]; intros quoted; simpl.
  - now rewrite orb_false_r.
  - rewrite IH, orb_assoc.
    destruct (Ascii.eqb c Csv.quotechar) eqn:E; [|reflexivity].
    apply Ascii.eqb_eq in E. now subst c.
Qed.

Lemma double_quotes_plain (field : string) :
  string_exists Csv.special field = false -> double_quotes field = field.
Proof.
  induction field as [|c field IH]; simpl; [reflexivity|].
  intros H. apply orb_false_elim in H. destruct H as [Hc Hf].
  unfold Csv.special in Hc.
  destruct (Ascii.eqb c Csv.quotechar).
  - now rewrite orb_true_r in Hc.
  - now rewrite IH.
Qed.

(** What [join_append] adds for a field that starts unquoted. *)
Lemma join_append_body (field : string) :
  (if string_exists Csv.special field
   then String Csv.quotechar (double_quotes field ++ String Csv.quotechar EmptyString)
   else double_quotes field) = csv_field field.
Proof.
  unfold csv_field. destruct (string_exists Csv.special field) eqn:E.
  - reflexivity.
  - now apply double_quotes_plain.
Qed.

Lemma join_append_first (field : string) :
  Csv.join_append (EmptyString, O) field false = (csv_field field, 1%nat).
Proof.
  unfold Csv.join_append. rewrite join_append_data_spec. simpl.
  now rewrite join_append_body.
Qed.

Lemma join_append_next (rec field : string) (n : nat) :
  Csv.join_append (rec, S n) field false
  = ((rec ++ String Csv.delimiter (csv_field field))%string, S (S n)).
Proof.
  unfold Csv.join_append. rewrite join_append_data_spec. simpl.
  now rewrite join_append_body.
Qed.

Lemma join_more (row : list value) (rec : string) (n : nat) :
  fold_left (fun st v => Csv.join_append st (Csv.field_text v) false) row (rec, S n)
  = ((rec ++ csv_more (map Csv.field_text row))%string, (S n + length row)%nat).
Proof.
  revert rec n. induction row as [|v row IH]; intros rec n;
    cbn [fold_left map csv_more length].
  - now rewrite append_nil_r, Nat.add_0_r.
  - rewrite join_append_next, IH, append_assoc. simpl.
    do 2 f_equal. lia.
Qed.

Lemma concat_more (f : string) (rest : list string) :
  String.concat (String Csv.delimiter EmptyString) (map csv_field (f :: rest))
  = (csv_field f ++ csv_more rest)%string.
Proof.
  revert f. induction rest as [|g rest IH]; intros f.
  - simpl. now rewrite append_nil_r.
  - change (map csv_field (f :: g :: rest))
      with (csv_field f :: map csv_field (g :: rest)).
    cbn [String.concat map]. cbn [String.concat map] in IH.
    rewrite IH. reflexivity.
Qed.

Lemma csv_field_empty (f : string) :
  String.length (csv_field f) = O -> f = EmptyString.
Proof.
  destruct f as [|c f]; [reflexivity|]. unfold csv_field.
  destruct (string_exists Csv.special (String c f)); simpl; discriminate.
Qed.

Lemma length_append (a b : string) :
  String.length (a ++ b) = (String.length a + String.length b)%nat.
Proof. induction a as [|c a IH]; simpl; [reflexivity | now rewrite IH]. Qed.

(** [writer.writerow] appends the line of the row. *)
Lemma writerow_spec (f : string) (row : list value) :
  Csv.writerow f row = (f ++ csv_line (map Csv.field_text row))%string.
Proof.
  unfold Csv.writerow, csv_line.
  destruct row as [|v row]; [reflexivity|].
  cbn [fold_left]. rewrite join_append_first, join_more.
  destruct row as [|v' row].
  - simpl. rewrite append_nil_r.
    destruct (Csv.field_text v) as [|c t] eqn:E.
    + reflexivity.
    + replace (Nat.eqb (String.length (csv_field (String c t))) 0) with false.
      * reflexivity.
      * symmetry. apply Nat.eqb_neq. intros H.
        apply csv_field_empty in H. discriminate.
  - replace (Nat.eqb _ 0) with false.
    + rewrite andb_false_r.
      change (map Csv.field_text (v :: v' :: row))
        with (Csv.field_text v :: map Csv.field_text (v' :: row)).
      rewrite concat_more.
      destruct (Csv.field_text v); reflexivity.
    + symmetry. apply Nat.eqb_neq. rewrite length_append. simpl. lia.
Qed.

(** ** DictWriter *)

Section DictEntries.
Context {K V : Type}.
Variable eqb : K -> K -> bool.
Hypothesis eqb_eq : forall a b, eqb a b = true <-> a = b.

Lemma dict_contains_setitem (d : list (K * V)) (k0 k : K) (v0 : V) :
  dict_contains eqb (dict_setitem eqb d k0 v0) k
  = dict_contains eqb d k || eqb k0 k.
Proof.
  induction d as [|[x w] d IH]; simpl.
  - now rewrite orb_false_r.
  - destruct (eqb x k0) eqn:E; simpl.
    + apply eqb_eq in E. subst x.
      destruct (eqb k0 k); simpl; [reflexivity | now rewrite orb_false_r].
    + now rewrite IH, orb_assoc.
Qed.

Lemma dict_setitem_in (d : list (K * V)) (k0 k : K) (v0 v : V) :
  In (k, v) (dict_setitem eqb d k0 v0) -> In (k, v) d \/ (k = k0 /\ v = v0).
Proof.
  induction d as [|[x w] d IH]; simpl.
  - intros [H|[]]. inversion H. now right.
  - destruct (eqb x k0) eqn:E; simpl.
    + apply eqb_eq in E. subst x. intros [H|H].
      * inversion H. now right.
      * left. now right.
    + intros [H|H]; [left; now left|].
      destruct (IH H) as [H'|H']; [left; now right | now right].
Qed.

Lemma dict_get_in (d : list (K * V)) (k : K) (dflt : V) :
  dict_contains eqb d k = true -> In (k, dict_get eqb d k dflt) d.
Proof.
  induction d as [|[x w] d IH]; simpl; [discriminate|].
  destruct (eqb x k) eqn:E; simpl.
  - apply eqb_eq in E. subst x. intros _. now left.
  - intros H. right. now apply IH.
Qed.

Lemma dict_keys_in (d : list (K * V)) (k : K) :
  In k (dict_keys d) -> exists v, In (k, v) d.
Proof.
  unfold dict_keys. rewrite in_map_iff. intros [[k' v] [E H]].
  simpl in E. subst k'. now exists v.
Qed.
End DictEntries.

Lemma existsb_eqb_in (k : string) (l : list string) :
  existsb (String.eqb k) l = true <-> In k l.
Proof.
  rewrite existsb_exists. split.
  - intros [x [H E]]. apply String.eqb_eq in E. now subst x.
  - intros H. exists k. split; [exact H | apply String.eqb_refl].
Qed.

Lemma filter_negb_forallb {A : Type} (p : A -> bool) (l : list A) :
  match filter (fun x => negb (p x)) l with
  | [] => forallb p l = true
  | _ :: _ => forallb p l = false
  end.
Proof.
  induction l as [|x l IH]; simpl; [reflexivity|].
  destruct (p x); simpl; [exact IH | reflexivity].
Qed.

Lemma dict_to_list_spec (fieldnames : list string) (r : record) :
  Csv.dict_to_list fieldnames r
  = if keys_within fieldnames r
    then Ok (map (fun key => dict_get String.eqb r key Csv.restval) fieldnames)
    else Raise Csv.extra_fields.
Proof.
  unfold Csv.dict_to_list, Csv.wrong_fields, keys_within.
  pose proof (filter_negb_forallb
                (fun k => existsb (String.eqb k) fieldnames) (dict_keys r)) as H.
  destruct (filter _ (dict_keys r)); now rewrite H.
Qed.

Lemma DictWriter_writerow_spec (f : string) (fieldnames : list string)
      (r : record) :
  Csv.DictWriter_writerow f fieldnames r
  = if keys_within fieldnames r
    then Ok (f ++ csv_line (csv_fields fieldnames r))%string
    else Raise Csv.extra_fields.
Proof.
  unfold Csv.DictWriter_writerow. rewrite dict_to_list_spec.
  destruct (keys_within fieldnames r); [|reflexivity].
  rewrite writerow_spec. unfold csv_fields. now rewrite map_map.
Qed.

Lemma writerows_spec (rows : list record) (f : string) (fieldnames : list string) :
  Csv.writerows f fieldnames rows
  = if forallb (keys_within fieldnames) rows
    then Ok (f ++ csv_lines fieldnames rows)%string
    else Raise Csv.extra_fields.
Proof.
  revert f. induction rows as [|r rows IH]; intros f; simpl.
  - now rewrite append_nil_r.
  - rewrite DictWriter_writerow_spec.
    destruct (keys_within fieldnames r); simpl; [|reflexivity].
    rewrite IH. destruct (forallb _ rows); [|reflexivity].
    now rewrite append_assoc.
Qed.

(** The header dict: every field name, mapped to itself. *)
Lemma combine_self_in (names : list string) (k : string) (v : value) :
  In (k, v) (combine names (map VStr names)) -> v = VStr k /\ In k names.
Proof.
  induction names as [|n names IH]; simpl; [intros []|].
  intros [H|H].
  - inversion H. subst. split; [reflexivity | now left].
  - destruct (IH H) as [E I]. split; [exact E | now right].
Qed.

Lemma dict_zip_entries (pairs : list (string * value)) (acc : record)
      (k : string) (v : value) :
  In (k, v) (fold_left (fun d kv => dict_setitem String.eqb d (fst kv) (snd kv))
                       pairs acc) ->
  In (k, v) acc \/ In (k, v) pairs.
Proof.
  revert acc. induction pairs as [|[k0 v0] pairs IH]; intros acc; simpl.
  - now left.
  - intros H. destruct (IH _ H) as [H'|H']; [|right; now right].
    apply (dict_setitem_in String.eqb String.eqb_eq) in H'.
    destruct H' as [H'|[-> ->]]; [now left | right; now left].
Qed.

Lemma dict_zip_contains (pairs : list (string * value)) (acc : record)
      (k : string) :
  dict_contains String.eqb acc k = true \/ In k (map fst pairs) ->
  dict_contains String.eqb
    (fold_left (fun d kv => dict_setitem String.eqb d (fst kv) (snd kv))
               pairs acc) k = true.
Proof.
  revert acc. induction pairs as [|[k0 v0] pairs IH]; intros acc; simpl.
  - intros [H|[]]. exact H.
  - intros H. apply IH.
    rewrite (dict_contains_setitem String.eqb String.eqb_eq).
    destruct H as [H|[H|H]].
    + left. now rewrite H.
    + left. subst k0. rewrite String.eqb_refl. apply orb_true_r.
    + now right.
Qed.

Lemma combine_self_fst (names : list string) :
  map fst (combine names (map VStr names)) = names.
Proof.
  induction names as [|n names IH]; simpl; [reflexivity | now rewrite IH].
Qed.

Lemma header_keys_within (names : list string) :
  keys_within names (Csv.dict_zip names (map VStr names)) = true.
Proof.
  unfold keys_within. apply forallb_forall. intros k Hk.
  apply dict_keys_in in Hk. destruct Hk as [v Hv].
  apply dict_zip_entries in Hv. destruct Hv as [[]|Hv].
  apply combine_self_in in Hv. now apply existsb_eqb_in.
Qed.

Lemma header_fields (names : list string) :
  csv_fields names (Csv.dict_zip names (map VStr names)) = names.
Proof.
  unfold csv_fields.
  transitivity (map (fun k : string => k) names); [|apply map_id].
  apply map_ext_in. intros k Hk.
  assert (C : dict_contains String.eqb (Csv.dict_zip names (map VStr names)) k
              = true).
  { apply dict_zip_contains. right. now rewrite combine_self_fst. }
  apply (dict_get_in String.eqb String.eqb_eq _ _ Csv.restval) in C.
  apply dict_zip_entries in C. destruct C as [[]|C].
  apply combine_self_in in C. destruct C as [E _]. now rewrite E.
Qed.

(** [export_csv], completely: the text when no record has a key outside
    the first record's keys, a [ValueError] otherwise. *)
Lemma export_csv_spec (data : list record) :
  export_csv data
  = if no_extra_keys data then Ok (csv_text data) else Raise Csv.extra_fields.
Proof.
  destruct data as [|first rest]; [reflexivity|].
  unfold export_csv, Csv.writeheader.
  rewrite DictWriter_writerow_spec, header_keys_within, header_fields.
  rewrite writerows_spec. reflexivity.
Qed.

Lemma keys_within_self (r : record) : keys_within (dict_keys r) r = true.
Proof.
  unfold keys_within. apply forallb_forall. intros k Hk.
  now apply existsb_eqb_in.
Qed.

(** C1, as stated, fails.  A list whose second record has a key
    that the first lacks is a non-empty list of records, and [export_csv]
    returns no text for it: it raises.  And the lines of the text end in
    CR LF whatever the platform, so the text for [[{"a": "1", "b": "2"}]]
    is not the one whose lines end in a line feed, the line terminator of
    a POSIX platform. *)
Lemma C1_counterexample_extra_key_raises :
  export_csv [[("a", VStr "1")]; [("b", VStr "2")]] = Raise Csv.extra_fields
  /\ export_csv [[("a", VStr "1"); ("b", VStr "2")]]
     <> Ok ("a,b" ++ newline ++ "1,2" ++ newline)%string.
Proof. split; [reflexivity | discriminate]. Qed.

(** C1, amended.  [export_csv] of the empty list is the empty string.
    For a list in which no record has a key outside the first record's
    keys, it is the line of the first record's keys, in that record's
    order, then one line per record in input order, a field that a record
    lacks being empty; a field with a delimiter, a quote or a line break is
    quoted with its quotes doubled ([csv_line], [csv_field]); every line
    ends in CR LF, the terminator of the csv module's default dialect.
    For [[{"a": "1", "b": "2"}]] that is the line a,b then the line 1,2
    and nothing after it. *)
Theorem C1_export_csv_text :
  export_csv [] = Ok EmptyString
  /\ (forall data : list record,
         no_extra_keys data = true -> export_csv data = Ok (csv_text data))
  /\ (forall first rest,
         csv_text (first :: rest)
         = (csv_line (dict_keys first)
            ++ csv_lines (dict_keys first) (first :: rest))%string)
  /\ export_csv [[("a", VStr "1"); ("b", VStr "2")]]
     = Ok ("a,b" ++ Csv.lineterminator ++ "1,2" ++ Csv.lineterminator)%string.
Proof.
  repeat split.
  - intros data H. now rewrite export_csv_spec, H.
Qed.

Lemma C1_export_csv_text_witness :
  no_extra_keys [[("event_title", VStr "Soil, Health"); ("gender", VNone)];
                 [("gender", VStr "Female")]] = true
  /\ export_csv [[("event_title", VStr "Soil, Health"); ("gender", VNone)];
                 [("gender", VStr "Female")]]
     = Ok (csv_text [[("event_title", VStr "Soil, Health"); ("gender", VNone)];
                     [("gender", VStr "Female")]]).
Proof.
  split; [reflexivity|].
  apply (proj1 (proj2 C1_export_csv_text)). reflexivity.
Defined.

(** C10, as stated, fails: a later record that lacks a key of
    the first is not uniform with it, and [export_csv] still returns text,
    the absent field written empty. *)
Lemma C10_counterexample_missing_key_is_written_empty :
  uniform [[("a", VStr "1"); ("b", VStr "2")]; [("a", VStr "3")]] = false
  /\ export_csv [[("a", VStr "1"); ("b", VStr "2")]; [("a", VStr "3")]]
     = Ok ("a,b" ++ Csv.lineterminator ++ "1,2" ++ Csv.lineterminator
           ++ "3," ++ Csv.lineterminator)%string.
Proof. split; reflexivity. Qed.

(** C10, amended.  [export_csv] raises exactly when some record has a key
    that the first record lacks ([DictWriter] rejects the extra field);
    in every other case, uniform or with keys missing, it returns the
    text. *)
Theorem C10_export_csv_raises_iff_extra_key (data : list record) :
  ((exists e, export_csv data = Raise e)
   <-> exists first rest r k,
        data = first :: rest /\ In r rest /\ In k (dict_keys r)
        /\ ~ In k (dict_keys first))
  /\ ((exists text, export_csv data = Ok text) <-> no_extra_keys data = true).
Proof.
  rewrite export_csv_spec. split.
  - destruct data as [|first rest]; simpl.
    + split; [intros [e H]; discriminate|].
      intros (first & rest & r & k & H & _). discriminate.
    + rewrite keys_within_self. simpl.
      destruct (forallb (keys_within (dict_keys first)) rest) eqn:E.
      * split; [intros [e H]; discriminate|].
        intros (first' & rest' & r & k & H & Hr & Hk & Hn).
        inversion H. subst first' rest'.
        rewrite forallb_forall in E. specialize (E r Hr).
        unfold keys_within in E. rewrite forallb_forall in E.
        specialize (E k Hk). apply existsb_eqb_in in E. contradiction.
      * split; [intros _ | intros _; now exists Csv.extra_fields].
        assert (exists r, In r rest /\ keys_within (dict_keys first) r = false)
          as (r & Hr & Hf).
        { clear -E. induction rest as [|x rest IH]; [discriminate|].
          simpl in E. destruct (keys_within (dict_keys first) x) eqn:F.
          - destruct (IH E) as (r & Hr & Hf). exists r. split; [now right | exact Hf].
          - exists x. split; [now left | exact F]. }
        unfold keys_within in Hf.
        assert (exists k, In k (dict_keys r)
                          /\ existsb (String.eqb k) (dict_keys first) = false)
          as (k & Hk & Hn).
        { clear -Hf. induction (dict_keys r) as [|x l IH]; [discriminate|].
          simpl in Hf. destruct (existsb (String.eqb x) (dict_keys first)) eqn:F.
          - destruct (IH Hf) as (k & Hk & Hn). exists k. split; [now right | exact Hn].
          - exists x. split; [now left | exact F]. }
        exists first, rest, r, k. repeat split; try assumption.
        intros Hin. apply existsb_eqb_in in Hin. congruence.
  - destruct (no_extra_keys data).
    + split; [reflexivity | intros _; now eexists].
    + split; [intros [t H]; discriminate | discriminate].
Qed.

(* ================================================================== *)
(** ** The store: what each function does to the world *)

Lemma init_db_run (w : world) :
  init_db w
  = (Ok tt,
     {| sqlite := sqlite w;
        disk := fst (init_result (sqlite w) (disk w));
        conn := None;
        trace := (trace w ++ snd (init_result (sqlite w) (disk w)))%list |}).
Proof.
  unfold init_db, init_result, bind, makedirs, ret, connect, execute, commit,
    close, try_except, set_conn.
  cbn [conn view in_transaction sqlite disk trace run opens_transaction
       create_events create_attendees pragma_events rename_date orb fst snd].
  fold (created (disk w)).
  destruct (date_not_event_date _).
  - cbn [conn view in_transaction sqlite disk trace run opens_transaction
       create_events create_attendees pragma_events rename_date orb fst snd].
    destruct (rename_column _ _ _ _ _);
      cbn [conn view in_transaction sqlite disk trace fst snd];
      repeat rewrite <- app_assoc; reflexivity.
  - cbn [conn view in_transaction sqlite disk trace fst snd].
    repeat rewrite <- app_assoc; reflexivity.
Qed.

Lemma add_event_run (title event_date location topic : string) (w : world) :
  add_event title event_date location topic w
  = after_insert w (insert_event title event_date location topic)
      (insert_into (disk w) Events ["title"; "event_date"; "location"; "topic"]
         [VStr title; VStr event_date; VStr location; VStr topic]).
Proof.
  unfold add_event, bind, connect, execute, commit, close, set_conn,
    after_insert, insert_event.
  cbn [conn view in_transaction sqlite disk trace run opens_transaction orb].
  destruct (insert_into _ _ _ _); reflexivity.
Qed.

Lemma add_attendee_run (event_id : Z) (name gender province : string)
      (w : world) :
  add_attendee event_id name gender province w
  = after_insert w (insert_attendee event_id name gender province)
      (insert_into (disk w) Attendees
         ["event_id"; "name"; "gender"; "province"]
         [VInt event_id; VStr name; VStr gender; VStr province]).
Proof.
  unfold add_attendee, bind, connect, execute, commit, close, set_conn,
    after_insert, insert_attendee.
  cbn [conn view in_transaction sqlite disk trace run opens_transaction orb].
  destruct (insert_into _ _ _ _); reflexivity.
Qed.

Lemma get_events_run (w : world) :
  get_events w
  = after_select w select_events
      (select_from (disk w) Events
         ["id"; "title"; "event_date"; "location"; "topic"]).
Proof.
  unfold get_events, bind, ret, connect, execute, close, set_conn,
    after_select, select_events.
  cbn [conn view in_transaction sqlite disk trace run opens_transaction orb].
  destruct (select_from _ _ _); reflexivity.
Qed.

Lemma get_attendance_data_run (w : world) :
  get_attendance_data w
  = after_select w SelectAttendanceJoin (select_attendance_join (disk w)).
Proof.
  unfold get_attendance_data, bind, ret, connect, execute, close, set_conn,
    after_select.
  cbn [conn view in_transaction sqlite disk trace run opens_transaction orb].
  destruct (select_attendance_join _); reflexivity.
Qed.

(* ================================================================== *)
(** ** The store reached from an empty database *)

Lemma number_rows_app (a b : list (list value)) (n : Z) :
  number_rows n (a ++ b)
  = (number_rows n a ++ number_rows (n + Z.of_nat (length a)) b)%list.
Proof.
  revert n. induction a as [|r a IH]; intros n.
  - simpl. now rewrite Z.add_0_r.
  - cbn [app number_rows length]. rewrite IH. do 3 f_equal. lia.
Qed.

Lemma max_rowid_numbered (rows : list (list value)) (n s : Z) :
  n - 1 <= s ->
  fold_left (fun m r => Z.max m (fst r)) (number_rows n rows) s
  = Z.max s (n - 1 + Z.of_nat (length rows)).
Proof.
  revert n s. induction rows as [|r rows IH]; intros n s H.
  - simpl. lia.
  - cbn [number_rows fold_left length fst]. rewrite IH by lia. lia.
Qed.

(** An INSERT that names known columns, none of them the key, and leaves
    no NOT NULL column empty: the row goes to the end, under the next
    rowid. *)
Lemma insert_into_auto (db : database) (t : table_name) (tb : table)
      (cols : list string) (params : list value) :
  get_table db t = Some tb ->
  forallb (has_column tb) cols = true ->
  length cols = length params ->
  forallb fits_int64 params = true ->
  violates_notnull (tbl_cols tb) (new_values tb cols params) = false ->
  match tbl_key tb with
  | Some k => bound cols params k
  | None => None
  end = None ->
  insert_into db t cols params
  = Ok (set_table db t
          (with_rows tb
             (tbl_rows tb ++ [(next_rowid tb, new_values tb cols params)])
             (next_rowid tb))).
Proof.
  intros Ht Hc Hl Hf Hn Hk. unfold insert_into.
  rewrite Ht, Hc, Hl, Nat.eqb_refl, Hf, Hn, Hk. reflexivity.
Qed.

Lemma next_rowid_events_table (es : list event_args) :
  next_rowid (events_table es) = 1 + Z.of_nat (length es).
Proof.
  unfold next_rowid, events_table. cbn [tbl_rows tbl_seq].
  rewrite max_rowid_numbered by lia. rewrite length_map. lia.
Qed.

Lemma next_rowid_attendees_table (atts : list attendee_args) :
  next_rowid (attendees_table atts) = 1 + Z.of_nat (length atts).
Proof.
  unfold next_rowid, attendees_table. cbn [tbl_rows tbl_seq].
  rewrite max_rowid_numbered by lia. rewrite length_map. lia.
Qed.

Lemma number_rows_snoc (rows : list (list value)) (r : list value) :
  number_rows 1 (rows ++ [r])
  = (number_rows 1 rows ++ [(1 + Z.of_nat (length rows), r)])%list.
Proof. now rewrite number_rows_app. Qed.

Lemma insert_event_store (es : list event_args) (atts : list attendee_args)
      (e : event_args) :
  insert_into (store es atts) Events ["title"; "event_date"; "location"; "topic"]
    [VStr (arg_title e); VStr (arg_event_date e); VStr (arg_location e);
     VStr (arg_topic e)]
  = Ok (store (es ++ [e]) atts).
Proof.
  rewrite (insert_into_auto _ _ (events_table es)); try reflexivity.
  rewrite next_rowid_events_table.
  change (new_values _ _ _) with (event_values e).
  unfold store, events_table, set_table, with_rows.
  cbn [events attendees tbl_key tbl_cols tbl_rows].
  rewrite map_app. cbn [map].
  rewrite number_rows_snoc, length_app, length_map.
  cbn [length]. do 4 f_equal. lia.
Qed.

Lemma insert_attendee_store (es : list event_args) (atts : list attendee_args)
      (a : attendee_args) :
  fits_int64 (VInt (arg_event_id a)) = true ->
  insert_into (store es atts) Attendees
    ["event_id"; "name"; "gender"; "province"]
    [VInt (arg_event_id a); VStr (arg_name a); VStr (arg_gender a);
     VStr (arg_province a)]
  = Ok (store es (atts ++ [a])).
Proof.
  intros F.
  rewrite (insert_into_auto _ _ (attendees_table atts)); try reflexivity;
    [|cbn [forallb]; now rewrite F].
  rewrite next_rowid_attendees_table.
  change (new_values _ _ _) with (attendee_values a).
  unfold store, attendees_table, set_table, with_rows.
  cbn [events attendees tbl_key tbl_cols tbl_rows].
  rewrite map_app. cbn [map].
  rewrite number_rows_snoc, length_app, length_map.
  cbn [length]. do 4 f_equal. lia.
Qed.

Lemma init_db_fresh (lib : library) :
  init_db (fresh lib)
  = (Ok tt,
     {| sqlite := lib; disk := store [] []; conn := None;
        trace := [create_events; create_attendees; pragma_events] |}).
Proof. rewrite init_db_run. reflexivity. Qed.

Lemma insert_attendee_overflow (es : list event_args)
      (atts : list attendee_args) (a : attendee_args) :
  fits_int64 (VInt (arg_event_id a)) = false ->
  insert_into (store es atts) Attendees
    ["event_id"; "name"; "gender"; "province"]
    [VInt (arg_event_id a); VStr (arg_name a); VStr (arg_gender a);
     VStr (arg_province a)]
  = Raise (OverflowError "Python int too large to convert to SQLite INTEGER").
Proof.
  intros F. unfold insert_into. cbn [get_table store attendees].
  change (forallb (has_column (attendees_table atts))
            ["event_id"; "name"; "gender"; "province"]) with true.
  cbn [negb length Nat.eqb forallb]. now rewrite F.
Qed.

Lemma do_call_store (c : call) (w : world) (es : list event_args)
      (atts : list attendee_args) :
  disk w = store es atts ->
  exists w',
    attempt (do_call c) w = (Ok tt, w')
    /\ disk w' = store (es ++ events_of [c]) (atts ++ attendees_of [c])
    /\ sqlite w' = sqlite w.
Proof.
  intros H. unfold attempt, try_except.
  destruct c as [e|a]; cbn [do_call events_of attendees_of].
  - rewrite add_event_run, H, insert_event_store. cbn [after_insert].
    eexists. split; [reflexivity|]. cbn [disk sqlite].
    now rewrite app_nil_r.
  - rewrite add_attendee_run, H.
    destruct (fits_int64 (VInt (arg_event_id a))) eqn:F.
    + rewrite insert_attendee_store by exact F. cbn [after_insert].
      eexists. split; [reflexivity|]. cbn [disk sqlite].
      now rewrite app_nil_r.
    + rewrite insert_attendee_overflow by exact F. cbn [after_insert ret].
      eexists. split; [reflexivity|]. cbn [disk sqlite].
      now rewrite H, !app_nil_r.
Qed.

Lemma events_of_cons (c : call) (cs : list call) :
  events_of (c :: cs) = (events_of [c] ++ events_of cs)%list.
Proof. destruct c; reflexivity. Qed.

Lemma attendees_of_cons (c : call) (cs : list call) :
  attendees_of (c :: cs) = (attendees_of [c] ++ attendees_of cs)%list.
Proof.
  destruct c as [e|a]; [reflexivity|]. cbn [attendees_of].
  now destruct (fits_int64 (VInt (arg_event_id a))).
Qed.

(** Calls on a store leave the store that holds what they added as well. *)
Lemma do_calls_store (cs : list call) (w : world) (es : list event_args)
      (atts : list attendee_args) :
  disk w = store es atts ->
  exists w',
    do_calls cs w = (Ok tt, w')
    /\ disk w' = store (es ++ events_of cs) (atts ++ attendees_of cs)
    /\ sqlite w' = sqlite w.
Proof.
  revert w es atts. induction cs as [|c cs IH]; intros w es atts H.
  - exists w. cbn [do_calls events_of attendees_of ret].
    now rewrite !app_nil_r.
  - destruct (do_call_store c w es atts H) as (w1 & R1 & D1 & S1).
    destruct (IH w1 _ _ D1) as (w2 & R2 & D2 & S2).
    exists w2. cbn [do_calls]. unfold bind. rewrite R1, R2.
    split; [reflexivity|]. split; [|congruence].
    rewrite D2, (events_of_cons c cs), (attendees_of_cons c cs).
    now rewrite !app_assoc.
Qed.

(** From no database file at all: [init_db], then any calls. *)
Lemma reached (lib : library) (cs : list call) :
  exists w,
    (init_db ;; do_calls cs) (fresh lib) = (Ok tt, w)
    /\ disk w = store (events_of cs) (attendees_of cs)
    /\ sqlite w = lib.
Proof.
  unfold bind. rewrite init_db_fresh.
  destruct (do_calls_store cs
              {| sqlite := lib; disk := store [] []; conn := None;
                 trace := [create_events; create_attendees; pragma_events] |}
              [] [] eq_refl) as (w & R & D & S).
  exists w. rewrite R. repeat split; assumption.
Qed.

(** *** Reading the store *)

Lemma event_row_dict (tb : table) (id : Z) (e : event_args) :
  tbl_key tb = Some "id" -> tbl_cols tb = events_columns ->
  dict_of_row (map (cell tb (id, event_values e))
                   ["id"; "title"; "event_date"; "location"; "topic"])
  = event_record id e.
Proof.
  intros Hk Hc. unfold cell, lookup. rewrite Hk, Hc. reflexivity.
Qed.

Lemma event_rows_dicts (tb : table) (es : list event_args) (n : Z) :
  tbl_key tb = Some "id" -> tbl_cols tb = events_columns ->
  map dict_of_row
    (map (fun r => map (cell tb r)
                       ["id"; "title"; "event_date"; "location"; "topic"])
         (number_rows n (map event_values es)))
  = numbered n es.
Proof.
  intros Hk Hc. revert n. induction es as [|e es IH]; intros n.
  - reflexivity.
  - cbn [map number_rows numbered]. rewrite IH.
    now rewrite <- (event_row_dict tb n e Hk Hc).
Qed.

Lemma get_events_store (w : world) (es : list event_args)
      (atts : list attendee_args) :
  disk w = store es atts -> fst (get_events w) = Ok (numbered 1 es).
Proof.
  intros H. rewrite get_events_run, H.
  change (select_from (store es atts) Events
            ["id"; "title"; "event_date"; "location"; "topic"])
    with (Ok (map (fun r => map (cell (events_table es) r)
                               ["id"; "title"; "event_date"; "location"; "topic"])
                  (number_rows 1 (map event_values es)))).
  cbn [after_select fst]. now rewrite event_rows_dicts.
Qed.

Lemma run_reached {A : Type} (lib : library) (cs : list call) (k : py A) :
  exists w,
    disk w = store (events_of cs) (attendees_of cs)
    /\ sqlite w = lib
    /\ (init_db ;; do_calls cs ;; k) (fresh lib) = k w.
Proof.
  destruct (reached lib cs) as (w & R & D & S).
  exists w. repeat split; try assumption.
  unfold bind in *. destruct (init_db (fresh lib)) as [[[]|e] w0].
  - now destruct (do_calls cs w0) as [[[]|e] w1]; inversion R.
  - discriminate.
Qed.

Lemma events_of_app (cs cs' : list call) :
  events_of (cs ++ cs') = (events_of cs ++ events_of cs')%list.
Proof.
  induction cs as [|c cs IH]; [reflexivity|].
  destruct c; simpl; now rewrite IH.
Qed.

Lemma numbered_app (es es' : list event_args) (n : Z) :
  numbered n (es ++ es')
  = (numbered n es ++ numbered (n + Z.of_nat (length es)) es')%list.
Proof.
  revert n. induction es as [|e es IH]; intros n.
  - simpl. now rewrite Z.add_0_r.
  - cbn [app numbered length]. rewrite IH. do 3 f_equal. lia.
Qed.

Lemma numbered_ids (es : list event_args) (m : nat) :
  map id_of (numbered (Z.of_nat m) es)
  = map (fun i => VInt (Z.of_nat i)) (seq m (length es)).
Proof.
  revert m. induction es as [|e es IH]; intros m; [reflexivity|].
  cbn [numbered map length seq]. f_equal.
  replace (Z.of_nat m + 1) with (Z.of_nat (S m)) by lia. apply IH.
Qed.

Lemma numbered_ids_NoDup (es : list event_args) :
  NoDup (map id_of (numbered 1 es)).
Proof.
  change (numbered 1 es) with (numbered (Z.of_nat 1) es).
  rewrite (numbered_ids es 1).
  apply Injective_map_NoDup; [|apply seq_NoDup].
  intros i j H. inversion H. lia.
Qed.

Lemma events_of_add_events (es : list event_args) :
  events_of (map AddEvent es) = es.
Proof. induction es as [|e es IH]; [reflexivity | simpl; now rewrite IH]. Qed.

Lemma get_events_reached (lib : library) (cs : list call) :
  fst ((init_db ;; do_calls cs ;; get_events) (fresh lib))
  = Ok (numbered 1 (events_of cs)).
Proof.
  destruct (run_reached lib cs get_events) as (w & D & _ & R).
  rewrite R. now apply get_events_store with (atts := attendees_of cs).
Qed.

(** C5.  After [init_db] on no database and any sequence of [add_event]
    calls, [get_events] returns exactly the events given, in the order of
    the calls, each with its title, event_date, location and topic, under
    the ids 1, 2, 3, ...: the ids are distinct, and calls made later leave
    the earlier events with their ids and give the new events larger
    ones.  Registering attendees in between changes none of this. *)
Theorem C5_get_events_returns_the_events_added (lib : library)
        (es : list event_args) :
  fst ((init_db ;; add_events es ;; get_events) (fresh lib))
  = Ok (numbered 1 es)
  /\ map id_of (numbered 1 es)
     = map (fun i => VInt (Z.of_nat i)) (seq 1 (length es))
  /\ NoDup (map id_of (numbered 1 es))
  /\ (forall es' : list event_args,
         fst ((init_db ;; add_events (es ++ es') ;; get_events) (fresh lib))
         = Ok (numbered 1 es ++ numbered (1 + Z.of_nat (length es)) es')%list)
  /\ (forall cs : list call,
         fst ((init_db ;; do_calls cs ;; get_events) (fresh lib))
         = Ok (numbered 1 (events_of cs))).
Proof.
  assert (G : forall es0,
             fst ((init_db ;; add_events es0 ;; get_events) (fresh lib))
             = Ok (numbered 1 es0)).
  { intros es0. unfold add_events.
    now rewrite get_events_reached, events_of_add_events. }
  split; [apply G|]. split; [apply (numbered_ids _ 1)|].
  split; [apply numbered_ids_NoDup|]. split.
  - intros es'. now rewrite G, numbered_app.
  - apply get_events_reached.
Qed.

(** *** The join on the store *)

Lemma join_test (es : list event_args) (atts : list attendee_args)
      (m i : Z) (a : attendee_args) (e : event_args) :
  sql_eq (snd (cell (attendees_table atts) (m, attendee_values a) "event_id"))
         (snd (cell (events_table es) (i, event_values e) "id"))
  = Z.eqb (arg_event_id a) i.
Proof. reflexivity. Qed.

Lemma join_row_dict (es : list event_args) (atts : list attendee_args)
      (m i : Z) (a : attendee_args) (e : event_args) :
  dict_of_row (join_row (attendees_table atts) (events_table es)
                        (m, attendee_values a) (i, event_values e))
  = attendance_record (event_record i e) a.
Proof. reflexivity. Qed.

(** Events numbered above the attendee's event id do not join. *)
Lemma join_matches_none (es0 : list event_args) (atts0 : list attendee_args)
      (m : Z) (a : attendee_args) (es : list event_args) (n : Z) :
  arg_event_id a < n ->
  join_matches (attendees_table atts0) (events_table es0)
    (m, attendee_values a) (number_rows n (map event_values es)) = [].
Proof.
  revert n. induction es as [|e es IH]; intros n H; [reflexivity|].
  unfold join_matches in *. cbn [map number_rows flat_map].
  rewrite join_test, IH by lia.
  destruct (Z.eqb_spec (arg_event_id a) n); [lia | reflexivity].
Qed.

Lemma event_with_id_above (es : list event_args) (n id : Z) :
  id < n -> event_with_id (numbered n es) id = None.
Proof.
  revert n. induction es as [|e es IH]; intros n H; [reflexivity|].
  unfold event_with_id in *. cbn [numbered find].
  change (id_of (event_record n e)) with (VInt n). cbn [value_eqb].
  destruct (Z.eqb_spec n id); [lia|]. apply IH. lia.
Qed.

(** An attendee row joins the one event that carries its event id. *)
Lemma join_matches_one (es0 : list event_args) (atts0 : list attendee_args)
      (m : Z) (a : attendee_args) (es : list event_args) (n : Z) :
  map dict_of_row
    (join_matches (attendees_table atts0) (events_table es0)
       (m, attendee_values a) (number_rows n (map event_values es)))
  = match event_with_id (numbered n es) (arg_event_id a) with
    | Some ev => [attendance_record ev a]
    | None => []
    end.
Proof.
  revert n. induction es as [|e es IH]; intros n; [reflexivity|].
  unfold join_matches, event_with_id in *. cbn [map number_rows flat_map numbered find].
  rewrite join_test.
  change (id_of (event_record n e)) with (VInt n). cbn [value_eqb].
  rewrite (Z.eqb_sym n).
  destruct (Z.eqb_spec (arg_event_id a) n) as [E|E].
  - pose proof (join_matches_none es0 atts0 m a es (n + 1)) as N.
    unfold join_matches in N. rewrite N by lia.
    cbn [app map]. now rewrite join_row_dict.
  - cbn [app]. apply IH.
Qed.

Lemma join_store (es : list event_args) (atts0 atts : list attendee_args)
      (n : Z) :
  map dict_of_row
    (flat_map (fun ar => join_matches (attendees_table atts0) (events_table es)
                           ar (tbl_rows (events_table es)))
              (number_rows n (map attendee_values atts)))
  = inner_join (numbered 1 es) atts.
Proof.
  revert n. induction atts as [|a atts IH]; intros n; [reflexivity|].
  cbn [map number_rows flat_map inner_join].
  rewrite map_app, IH. f_equal.
  unfold events_table at 2. cbn [tbl_rows]. apply join_matches_one.
Qed.

Lemma get_attendance_data_store (w : world) (es : list event_args)
      (atts : list attendee_args) :
  disk w = store es atts ->
  fst (get_attendance_data w) = Ok (inner_join (numbered 1 es) atts).
Proof.
  intros H. rewrite get_attendance_data_run, H.
  change (select_attendance_join (store es atts))
    with (Ok (flat_map
                (fun ar => join_matches (attendees_table atts) (events_table es)
                             ar (tbl_rows (events_table es)))
                (number_rows 1 (map attendee_values atts)))).
  cbn [after_select fst]. now rewrite join_store.
Qed.

Lemma event_with_id_without (evs : list record) (i id : Z) :
  id <> i -> event_with_id (without_event i evs) id = event_with_id evs id.
Proof.
  intros H. unfold event_with_id, without_event.
  induction evs as [|ev evs IH]; [reflexivity|]. cbn [filter find].
  destruct (value_eqb (id_of ev) (VInt i)) eqn:E; cbn [negb find].
  - apply value_eqb_eq in E. rewrite E. cbn [value_eqb].
    destruct (Z.eqb_spec i id); [congruence | exact IH].
  - destruct (value_eqb (id_of ev) (VInt id)); [reflexivity | exact IH].
Qed.

Lemma inner_join_length (evs : list record) (atts : list attendee_args) :
  length (inner_join evs atts) = length (filter (has_event evs) atts).
Proof.
  induction atts as [|a atts IH]; [reflexivity|].
  cbn [inner_join flat_map filter]. rewrite length_app. unfold has_event at 1.
  destruct (event_with_id evs (arg_event_id a)); cbn [length];
    unfold inner_join in IH; now rewrite IH.
Qed.

(** C2.  After [init_db] on no database and any calls,
    [get_attendance_data] returns the
    inner join of the attendees added to the events that [get_events]
    returns: for each attendee, in the order added, one record
    (event_title, event_date, gender, province) when an event carries its
    event id, and none otherwise.  So there are as many records as
    attendees with an event, and an event that no attendee refers to
    contributes nothing: without it the result is the same. *)
Theorem C2_attendance_data_is_the_inner_join (lib : library) (cs : list call) :
  fst ((init_db ;; do_calls cs ;; get_attendance_data) (fresh lib))
  = Ok (inner_join (numbered 1 (events_of cs)) (attendees_of cs))
  /\ fst ((init_db ;; do_calls cs ;; get_events) (fresh lib))
     = Ok (numbered 1 (events_of cs))
  /\ length (inner_join (numbered 1 (events_of cs)) (attendees_of cs))
     = length (filter (has_event (numbered 1 (events_of cs))) (attendees_of cs))
  /\ (forall i : Z,
         (forall a, In a (attendees_of cs) -> arg_event_id a <> i) ->
         inner_join (without_event i (numbered 1 (events_of cs))) (attendees_of cs)
         = inner_join (numbered 1 (events_of cs)) (attendees_of cs)).
Proof.
  split; [|split; [|split]].
  - destruct (run_reached lib cs get_attendance_data) as (w & D & _ & R).
    rewrite R. now apply get_attendance_data_store.
  - apply get_events_reached.
  - apply inner_join_length.
  - intros i H. unfold inner_join.
    induction (attendees_of cs) as [|a atts IH]; [reflexivity|].
    cbn [flat_map]. rewrite IH by (intros b Hb; apply H; now right).
    rewrite event_with_id_without by (apply H; now left). reflexivity.
Qed.

Lemma C2_attendance_data_is_the_inner_join_witness :
  fst ((init_db ;; do_calls sample_calls ;; get_attendance_data)
         (fresh sqlite_new))
  = Ok [[("event_title", VStr "Soil Health Day");
         ("event_date", VStr "2024-03-01");
         ("gender", VStr "Female"); ("province", VStr "Nairobi")]].
Proof.
  exact (proj1 (C2_attendance_data_is_the_inner_join sqlite_new sample_calls)).
Defined.

(* ================================================================== *)
(** ** Initialisation *)

Lemma info_cols_names (cols : list column) (cid : Z) :
  map (fun col => tuple_index col 1) (info_cols cid cols)
  = map VStr (map col_name cols).
Proof.
  revert cid. induction cols as [|c cols IH]; intros cid; [reflexivity|].
  cbn [info_cols map]. now rewrite IH.
Qed.

(** The names that [init_db] reads off PRAGMA table_info. *)
Lemma table_info_names (db : database) :
  map (fun col => tuple_index col 1) (table_info db Events)
  = match events db with
    | Some tb => map VStr (column_names tb)
    | None => []
    end.
Proof.
  unfold table_info, column_names. cbn [get_table].
  destruct (events db) as [tb|]; [|reflexivity].
  destruct (tbl_key tb); cbn [map]; now rewrite info_cols_names.
Qed.

Lemma py_in_names (x : string) (names : list string) :
  py_in (VStr x) (map VStr names) = existsb (String.eqb x) names.
Proof.
  unfold py_in. induction names as [|n names IH]; [reflexivity|].
  cbn [map existsb value_eqb]. now rewrite IH.
Qed.

Lemma date_not_event_date_names (names : list string) :
  date_not_event_date (map VStr names) = true
  <-> In "date" names /\ ~ In "event_date" names.
Proof.
  unfold date_not_event_date. rewrite !py_in_names, andb_true_iff, negb_true_iff.
  rewrite existsb_eqb_in. split; intros [H1 H2]; split; try assumption.
  - intros H. apply existsb_eqb_in in H. congruence.
  - destruct (existsb _ names) eqn:E; [|reflexivity].
    apply existsb_eqb_in in E. contradiction.
Qed.

Lemma created_events (db : database) :
  events (created db)
  = match events db with
    | Some tb => Some tb
    | None => Some {| tbl_key := Some "id"; tbl_cols := events_columns;
                      tbl_rows := []; tbl_seq := 0 |}
    end.
Proof.
  destruct db as [[e|] [a|]]; reflexivity.
Qed.

Lemma created_attendees (db : database) :
  attendees (created db)
  = match attendees db with
    | Some tb => Some tb
    | None => Some {| tbl_key := Some "id"; tbl_cols := attendees_columns;
                      tbl_rows := []; tbl_seq := 0 |}
    end.
Proof.
  destruct db as [[e|] [a|]]; reflexivity.
Qed.

(** Where both tables exist the CREATE statements change nothing. *)
Lemma created_nothing (db : database) (e a : table) :
  events db = Some e -> attendees db = Some a -> created db = db.
Proof.
  destruct db as [e' a']. cbn [events attendees]. intros -> ->. reflexivity.
Qed.

Lemma created_has_tables (db : database) :
  exists e a, events (created db) = Some e /\ attendees (created db) = Some a.
Proof.
  rewrite created_events, created_attendees.
  destruct (events db), (attendees db); eauto.
Qed.

(** The test of [init_db], on the pre-state. *)
Lemma rename_wanted (db : database) :
  date_not_event_date
    (map (fun col => tuple_index col 1) (table_info (created db) Events)) = true
  <-> legacy_date db.
Proof.
  rewrite table_info_names, created_events. unfold legacy_date.
  destruct (events db) as [tb|].
  - rewrite date_not_event_date_names. split.
    + intros H. now exists tb.
    + intros (tb' & E & H). inversion E. now subst.
  - split; [discriminate|]. intros (tb & E & _). discriminate.
Qed.

Lemma existsb_col_names (p : string -> bool) (cols : list column) :
  existsb p (map col_name cols) = existsb (fun c => p (col_name c)) cols.
Proof.
  induction cols as [|c cols IH]; [reflexivity|].
  cbn [map existsb]. now rewrite IH.
Qed.

Lemma rename_in_cols_named (cols : list column) (old new : string) :
  existsb (fun c => name_eqb (col_name c) old) cols = true ->
  In new (map col_name (rename_in_cols cols old new)).
Proof.
  induction cols as [|c cols IH]; [discriminate|]. cbn [existsb rename_in_cols].
  destruct (name_eqb (col_name c) old); cbn [orb map col_name].
  - intros _. now left.
  - intros H. right. now apply IH.
Qed.

(** A rename that succeeds leaves the new name in the table, and the rows
    and the other table as they were. *)
Lemma rename_column_ok (lib : library) (db db' : database) (old new : string) :
  rename_column lib db Events old new = Ok db' ->
  exists tb tb',
    events db = Some tb /\ events db' = Some tb'
    /\ attendees db' = attendees db
    /\ In new (column_names tb') /\ tbl_rows tb' = tbl_rows tb.
Proof.
  unfold rename_column. cbn [get_table].
  destruct (negb (rename_column_supported lib)); [discriminate|].
  destruct (events db) as [tb|]; [|discriminate].
  destruct (has_column tb old) eqn:Ho; [|discriminate]. cbn [negb].
  destruct (has_column tb new); [discriminate|].
  unfold is_key, has_column, column_names in *.
  destruct (tbl_key tb) as [k|] eqn:K.
  - destruct (name_eqb k old) eqn:E; intros H; inversion H;
      cbn [set_table events attendees]; eexists; eexists;
      repeat split; cbn [tbl_key tbl_cols tbl_rows].
    + now left.
    + right. cbn [existsb] in Ho. rewrite E in Ho. cbn [orb] in Ho.
      apply rename_in_cols_named. now rewrite existsb_col_names in Ho.
  - intros H; inversion H. cbn [set_table events attendees].
    eexists; eexists; repeat split; cbn [tbl_key tbl_cols tbl_rows].
    apply rename_in_cols_named. now rewrite existsb_col_names in Ho.
Qed.

Lemma created_again (db : database) : created (created db) = created db.
Proof.
  destruct (created_has_tables db) as (e & a & He & Ha).
  exact (created_nothing _ e a He Ha).
Qed.

(** A database that [init_db] left is left as it is by the next
    [init_db]. *)
Lemma init_result_again (lib : library) (db : database) :
  fst (init_result lib (fst (init_result lib db))) = fst (init_result lib db).
Proof.
  assert (same : forall db1 : database,
             created db1 = db1 ->
             (date_not_event_date
                (map (fun col => tuple_index col 1) (table_info db1 Events)) = true ->
              exists e, rename_column lib db1 Events "date" "event_date" = Raise e) ->
             fst (init_result lib db1) = db1).
  { intros db1 C F. unfold init_result. rewrite C.
    destruct (date_not_event_date _); [|reflexivity].
    destruct (F eq_refl) as [e ->]. reflexivity. }
  unfold init_result at 2 3.
  destruct (date_not_event_date
              (map (fun col => tuple_index col 1) (table_info (created db) Events)))
    eqn:D.
  - destruct (rename_column lib (created db) Events "date" "event_date")
      as [db2|e] eqn:R; cbn [fst]; apply same.
    + destruct (rename_column_ok _ _ _ _ _ R) as (tb & tb' & _ & E2 & A2 & _).
      destruct (created_has_tables db) as (e1 & a1 & _ & Ha).
      rewrite Ha in A2. exact (created_nothing db2 tb' a1 E2 A2).
    + destruct (rename_column_ok _ _ _ _ _ R) as (tb & tb' & _ & E2 & _ & N & _).
      intros D2. rewrite table_info_names, E2 in D2.
      apply date_not_event_date_names in D2. destruct D2 as [_ D2].
      contradiction.
    + apply created_again.
    + intros _. now exists e.
  - cbn [fst]. apply same; [apply created_again|].
    intros D2. congruence.
Qed.

Lemma init_result_rows (lib : library) (db : database) (t : table_name)
      (tb : table) :
  get_table db t = Some tb ->
  exists tb', get_table (fst (init_result lib db)) t = Some tb'
              /\ tbl_rows tb' = tbl_rows tb.
Proof.
  intros H.
  assert (C : get_table (created db) t = Some tb).
  { destruct t; cbn [get_table] in *.
    - now rewrite created_events, H.
    - now rewrite created_attendees, H. }
  unfold init_result. destruct (date_not_event_date _); [|now exists tb].
  destruct (rename_column lib (created db) Events "date" "event_date")
    as [db2|e] eqn:R; cbn [fst]; [|now exists tb].
  destruct (rename_column_ok _ _ _ _ _ R) as (tb1 & tb2 & E1 & E2 & A2 & _ & Rw).
  destruct t; cbn [get_table] in *.
  - exists tb2. split; [exact E2 | congruence].
  - exists tb. split; [congruence | reflexivity].
Qed.

(** C6.  [init_db] returns normally, and so does a second [init_db]
    right after it, which leaves the database exactly as the first left
    it: both tables are there, once each, with the rows they had.  The
    first call too keeps the rows of every table it finds. *)
Theorem C6_init_db_is_idempotent (w : world) :
  fst (init_db w) = Ok tt
  /\ fst (init_db (snd (init_db w))) = Ok tt
  /\ disk (snd (init_db (snd (init_db w)))) = disk (snd (init_db w))
  /\ (exists e a, events (disk (snd (init_db w))) = Some e
                  /\ attendees (disk (snd (init_db w))) = Some a)
  /\ (forall t tb, get_table (disk w) t = Some tb ->
        exists tb', get_table (disk (snd (init_db w))) t = Some tb'
                    /\ tbl_rows tb' = tbl_rows tb).
Proof.
  rewrite !init_db_run. cbn [fst snd disk sqlite].
  repeat split.
  - apply init_result_again.
  - destruct (created_has_tables (disk w)) as (e & a & He & Ha).
    unfold init_result. destruct (date_not_event_date _); [|now exists e, a].
    destruct (rename_column (sqlite w) (created (disk w)) Events "date" "event_date")
      as [db2|x] eqn:R; cbn [fst]; [|now exists e, a].
    destruct (rename_column_ok _ _ _ _ _ R) as (tb1 & tb2 & _ & E2 & A2 & _).
    exists tb2, a. split; [exact E2 | congruence].
  - intros t tb H. now apply init_result_rows.
Qed.

(** C7.  [init_db] always returns normally.  Among the statements it
    runs, the rename of date to event_date is there exactly when the
    events table it finds has a column named date and none named
    event_date.  When that rename raises, nothing is raised by [init_db],
    and the database is as the two CREATE statements left it: an events
    table that was there keeps its rows and its columns.  The reason does
    not matter: the handler around the rename turns every exception into a
    normal return. *)
Theorem C7_rename_when_legacy_and_failure_swallowed (w : world) :
  fst (init_db w) = Ok tt
  /\ (exists ran,
         trace (snd (init_db w)) = (trace w ++ ran)%list
         /\ (In rename_date ran <-> legacy_date (disk w)))
  /\ (forall e,
         rename_column (sqlite w) (created (disk w)) Events "date" "event_date"
         = Raise e ->
         disk (snd (init_db w)) = created (disk w)
         /\ forall tb, events (disk w) = Some tb ->
                       events (disk (snd (init_db w))) = Some tb)
  /\ (forall (body : py unit) (w0 : world),
         fst (try_except body (fun _ => ret tt) w0) = Ok tt).
Proof.
  rewrite init_db_run. cbn [fst snd disk trace].
  split; [reflexivity|]. split; [|split].
  - exists (snd (init_result (sqlite w) (disk w))). split; [reflexivity|].
    rewrite <- rename_wanted. unfold init_result.
    destruct (date_not_event_date _).
    + destruct (rename_column _ _ _ _ _); cbn [snd]; split; try reflexivity;
        intros _; right; right; right; now left.
    + cbn [snd]. split; [|discriminate].
      intros [H|[H|[H|[]]]]; discriminate.
  - intros e R.
    assert (D : fst (init_result (sqlite w) (disk w)) = created (disk w)).
    { unfold init_result. rewrite R. now destruct (date_not_event_date _). }
    rewrite D. split; [reflexivity|].
    intros tb H. now rewrite created_events, H.
  - intros body w0. unfold try_except.
    destruct (body w0) as [[[]|e] w1]; reflexivity.
Qed.

Lemma C7_rename_when_legacy_and_failure_swallowed_witness :
  rename_column sqlite_old (created legacy_database) Events "date" "event_date"
  = Raise (OperationalError "near COLUMN: syntax error")
  /\ fst (init_db (world_of sqlite_old legacy_database)) = Ok tt
  /\ disk (snd (init_db (world_of sqlite_old legacy_database)))
     = created legacy_database
  /\ events (disk (snd (init_db (world_of sqlite_old legacy_database))))
     = events legacy_database.
Proof.
  split; [reflexivity|].
  split; [exact (proj1 (C7_rename_when_legacy_and_failure_swallowed
                          (world_of sqlite_old legacy_database)))|].
  destruct (proj1 (proj2 (proj2 (C7_rename_when_legacy_and_failure_swallowed
                                   (world_of sqlite_old legacy_database))))
              (OperationalError "near COLUMN: syntax error") eq_refl)
    as [D E].
  split; [exact D | exact (E _ eq_refl)].
Defined.

(* ================================================================== *)
(** ** Inserts: what they check and what they leave alone *)

Lemma insert_row_split (rows rows' : list (Z * list value)) (r : Z * list value) :
  insert_row rows r = Ok rows' ->
  exists pre post, rows = (pre ++ post)%list /\ rows' = (pre ++ r :: post)%list.
Proof.
  revert rows'. induction rows as [|x rows IH]; intros rows'; cbn [insert_row].
  - intros H. inversion H. now exists [], [].
  - destruct (fst r <? fst x).
    + intros H. inversion H. now exists [], (x :: rows).
    + destruct (fst r =? fst x); [discriminate|].
      destruct (insert_row rows r) as [rest|e]; [|discriminate].
      intros H. inversion H.
      destruct (IH rest eq_refl) as (pre & post & -> & ->).
      now exists (x :: pre), post.
Qed.

(** An INSERT that succeeds puts one row into its table and touches
    nothing else: not the rows that were there, not the columns, not the
    other table. *)
Lemma insert_into_frame (db db' : database) (t : table_name)
      (cols : list string) (params : list value) :
  insert_into db t cols params = Ok db' ->
  exists tb pre post new seq,
    get_table db t = Some tb
    /\ tbl_rows tb = (pre ++ post)%list
    /\ db' = set_table db t (with_rows tb (pre ++ new :: post) seq).
Proof.
  unfold insert_into. destruct (get_table db t) as [tb|]; [|discriminate].
  destruct (negb (forallb (has_column tb) cols)); [discriminate|].
  destruct (negb (Nat.eqb (length cols) (length params))); [discriminate|].
  destruct (negb (forallb fits_int64 params)); [discriminate|].
  destruct (violates_notnull _ _); [discriminate|].
  assert (auto : forall n vals,
             Ok (set_table db t (with_rows tb (tbl_rows tb ++ [(n, vals)]) n))
             = Ok db' ->
             exists tb0 pre post new seq,
               Some tb = Some tb0
               /\ tbl_rows tb0 = (pre ++ post)%list
               /\ db' = set_table db t (with_rows tb0 (pre ++ new :: post) seq)).
  { intros n vals H. inversion H.
    exists tb, (tbl_rows tb), [], (n, vals), n.
    now rewrite app_nil_r. }
  destruct (match tbl_key tb with
            | Some k => bound cols params k
            | None => None
            end) as [[|n|s]|]; try discriminate; try apply auto.
  destruct (insert_row _ _) as [rows|e] eqn:I; [|discriminate].
  intros H. inversion H.
  destruct (insert_row_split _ _ _ I) as (pre & post & E & ->).
  now exists tb, pre, post, (n, new_values tb cols params), (Z.max (tbl_seq tb) n).
Qed.

(** C9.  No call updates or deletes an event.  [add_attendee] leaves the
    events table as it is, whether it returns or raises.  [add_event]
    leaves the attendees table as it is; when it raises, the events table
    too; when it returns, the events table has its old rows, unchanged and
    in their order, and one new row (after all of them when the store is
    the one [init_db] made).  Reading changes nothing. *)
Theorem C9_events_are_never_updated_or_deleted (w : world) :
  (forall event_id name gender province,
      events (disk (snd (add_attendee event_id name gender province w)))
      = events (disk w))
  /\ (forall title event_date location topic,
         attendees (disk (snd (add_event title event_date location topic w)))
         = attendees (disk w)
         /\ ((exists e, fst (add_event title event_date location topic w) = Raise e
                        /\ events (disk (snd (add_event title event_date location
                                               topic w)))
                           = events (disk w))
             \/ (fst (add_event title event_date location topic w) = Ok tt
                 /\ exists tb pre post new seq,
                     events (disk w) = Some tb
                     /\ tbl_rows tb = (pre ++ post)%list
                     /\ events (disk (snd (add_event title event_date location
                                             topic w)))
                        = Some (with_rows tb (pre ++ new :: post) seq))))
  /\ (forall es atts e,
         disk w = store es atts ->
         events (disk (snd (add_event (arg_title e) (arg_event_date e)
                                      (arg_location e) (arg_topic e) w)))
         = Some (with_rows (events_table es)
                   (tbl_rows (events_table es)
                    ++ [(1 + Z.of_nat (length es), event_values e)])
                   (1 + Z.of_nat (length es))))
  /\ disk (snd (get_events w)) = disk w
  /\ disk (snd (get_attendance_data w)) = disk w.
Proof.
  split; [|split; [|split; [|split]]].
  - intros event_id name gender province. rewrite add_attendee_run.
    destruct (insert_into _ _ _ _) as [db'|e] eqn:I; cbn [after_insert snd disk];
      [|reflexivity].
    destruct (insert_into_frame _ _ _ _ _ I) as (tb & pre & post & new & seq & _ & _ & ->).
    reflexivity.
  - intros title event_date location topic. rewrite add_event_run.
    destruct (insert_into _ _ _ _) as [db'|e] eqn:I;
      cbn [after_insert fst snd disk].
    + destruct (insert_into_frame _ _ _ _ _ I)
        as (tb & pre & post & new & seq & G & R & ->).
      split; [reflexivity|]. right. split; [reflexivity|].
      now exists tb, pre, post, new, seq.
    + split; [reflexivity|]. left. now exists e.
  - intros es atts e H. rewrite add_event_run, H, insert_event_store.
    cbn [after_insert snd disk store events]. unfold events_table, with_rows.
    cbn [tbl_key tbl_cols tbl_rows]. rewrite map_app. cbn [map].
    rewrite number_rows_snoc, length_app, length_map. cbn [length].
    do 2 f_equal. lia.
  - rewrite get_events_run. now destruct (select_from _ _ _).
  - rewrite get_attendance_data_run. now destruct (select_attendance_join _).
Qed.

Lemma C9_events_are_never_updated_or_deleted_witness :
  events (disk (snd (add_event "Seed Fair" "2024-04-02" "Kiambu" "seed"
                       (world_of sqlite_new (store [soil_day] [])))))
  = Some {| tbl_key := Some "id"; tbl_cols := events_columns;
            tbl_rows := [(1, [VStr "Soil Health Day"; VStr "2024-03-01";
                              VStr "Nairobi"; VStr "soil"]);
                         (2, [VStr "Seed Fair"; VStr "2024-04-02";
                              VStr "Kiambu"; VStr "seed"])];
            tbl_seq := 2 |}.
Proof.
  exact (proj1 (proj2 (proj2 (C9_events_are_never_updated_or_deleted
                                (world_of sqlite_new (store [soil_day] [])))))
           [soil_day] [] seed_fair eq_refl).
Defined.

(** C8.  The store checks nothing itself.  What [add_event] and
    [add_attendee] return is what their INSERT returns: [Ok] when SQLite
    takes the row, the exception of SQLite otherwise.  On the store that
    [init_db] made, SQLite takes every title, the empty string too (which
    [get_events] then shows as the title), and every event id that it can
    hold, also one that no event carries (the declared foreign key is not
    enforced, as the connection never turns foreign keys on); an event id
    that is no 64-bit integer is refused when it is bound, not by the
    store. *)
Theorem C8_the_store_does_not_validate :
  (forall w title event_date location topic,
      fst (add_event title event_date location topic w)
      = match insert_into (disk w) Events
                ["title"; "event_date"; "location"; "topic"]
                [VStr title; VStr event_date; VStr location; VStr topic] with
        | Ok _ => Ok tt
        | Raise e => Raise e
        end)
  /\ (forall w event_id name gender province,
         fst (add_attendee event_id name gender province w)
         = match insert_into (disk w) Attendees
                   ["event_id"; "name"; "gender"; "province"]
                   [VInt event_id; VStr name; VStr gender; VStr province] with
           | Ok _ => Ok tt
           | Raise e => Raise e
           end)
  /\ (forall lib cs title event_date location topic,
         fst ((init_db ;; do_calls cs ;;
               add_event title event_date location topic) (fresh lib))
         = Ok tt)
  /\ (forall lib cs event_date location topic,
         fst ((init_db ;; do_calls cs ;;
               add_event EmptyString event_date location topic ;;
               get_events) (fresh lib))
         = Ok (numbered 1 (events_of cs)
               ++ [event_record (1 + Z.of_nat (length (events_of cs)))
                     {| arg_title := EmptyString; arg_event_date := event_date;
                        arg_location := location; arg_topic := topic |}])%list)
  /\ (forall lib cs a,
         fits_int64 (VInt (arg_event_id a)) = true ->
         fst ((init_db ;; do_calls cs ;;
               add_attendee (arg_event_id a) (arg_name a) (arg_gender a)
                            (arg_province a)) (fresh lib))
         = Ok tt
         /\ disk (snd ((init_db ;; do_calls cs ;;
                        add_attendee (arg_event_id a) (arg_name a) (arg_gender a)
                                     (arg_province a)) (fresh lib)))
            = store (events_of cs) (attendees_of cs ++ [a]))
  /\ (forall lib cs a,
         fits_int64 (VInt (arg_event_id a)) = false ->
         fst ((init_db ;; do_calls cs ;;
               add_attendee (arg_event_id a) (arg_name a) (arg_gender a)
                            (arg_province a)) (fresh lib))
         = Raise (OverflowError
                    "Python int too large to convert to SQLite INTEGER")).
Proof.
  split; [|split; [|split; [|split; [|split]]]].
  - intros. rewrite add_event_run. now destruct (insert_into _ _ _ _).
  - intros. rewrite add_attendee_run. now destruct (insert_into _ _ _ _).
  - intros lib cs title event_date location topic.
    destruct (run_reached lib cs (add_event title event_date location topic))
      as (w & D & _ & R).
    rewrite R, add_event_run, D.
    rewrite (insert_event_store _ _
               {| arg_title := title; arg_event_date := event_date;
                  arg_location := location; arg_topic := topic |}).
    reflexivity.
  - intros lib cs event_date location topic.
    destruct (run_reached lib cs
                (add_event EmptyString event_date location topic ;; get_events))
      as (w & D & _ & R).
    rewrite R. unfold bind. rewrite add_event_run, D.
    rewrite (insert_event_store _ _
               {| arg_title := EmptyString; arg_event_date := event_date;
                  arg_location := location; arg_topic := topic |}).
    cbn [after_insert]. rewrite get_events_store with
      (es := (events_of cs
              ++ [{| arg_title := EmptyString; arg_event_date := event_date;
                     arg_location := location; arg_topic := topic |}])%list)
      (atts := attendees_of cs) by reflexivity.
    rewrite numbered_app. reflexivity.
  - intros lib cs a Fa.
    destruct (run_reached lib cs
                (add_attendee (arg_event_id a) (arg_name a) (arg_gender a)
                              (arg_province a)))
      as (w & D & _ & R).
    rewrite R, add_attendee_run, D, insert_attendee_store by exact Fa.
    now split.
  - intros lib cs a Fa.
    destruct (run_reached lib cs
                (add_attendee (arg_event_id a) (arg_name a) (arg_gender a)
                              (arg_province a)))
      as (w & D & _ & R).
    now rewrite R, add_attendee_run, D, insert_attendee_overflow by exact Fa.
Qed.

Lemma C8_the_store_does_not_validate_witness :
  fst ((init_db ;; do_calls [AddEvent soil_day] ;;
        add_event EmptyString "2024-05-06" "Thika" EmptyString ;;
        get_events) (fresh sqlite_new))
  = Ok [event_record 1 soil_day;
        [("id", VInt 2); ("title", VStr EmptyString);
         ("event_date", VStr "2024-05-06"); ("location", VStr "Thika");
         ("topic", VStr EmptyString)]]
  /\ fst ((init_db ;; do_calls [AddEvent soil_day] ;;
          add_attendee 99 "Kofi" "Male" "Kiambu") (fresh sqlite_new))
     = Ok tt.
Proof.
  split.
  - exact (proj1 (proj2 (proj2 (proj2 C8_the_store_does_not_validate)))
             sqlite_new [AddEvent soil_day] "2024-05-06" "Thika" EmptyString).
  - exact (proj1 (proj1 (proj2 (proj2 (proj2 (proj2
                    C8_the_store_does_not_validate))))
                    sqlite_new [AddEvent soil_day] (kofi 99) eq_refl)).
Defined.

(* ================================================================== *)
(** ** The scenario of the specification, end to end *)

(** One event, two attendees: two attendance records; each gender and
    each province counted once, in first-seen order; a CSV text of a
    header and two rows. *)
Example soil_health_day :
  let run := (init_db ;;
              do_calls [AddEvent soil_day; AddAttendee (amina 1);
                        AddAttendee (kofi 1)] ;;
              get_attendance_data) (fresh sqlite_new) in
  exists data,
    fst run = Ok data
    /\ length data = 2%nat
    /\ gender_counts data = Ok [(VStr "Female", 1); (VStr "Male", 1)]
    /\ province_counts data = Ok [(VStr "Nairobi", 1); (VStr "Kiambu", 1)]
    /\ events_counts data = Ok [(VStr "Soil Health Day", 2)]
    /\ export_csv data
       = Ok ("event_title,event_date,gender,province" ++ Csv.lineterminator
             ++ "Soil Health Day,2024-03-01,Female,Nairobi" ++ Csv.lineterminator
             ++ "Soil Health Day,2024-03-01,Male,Kiambu" ++ Csv.lineterminator)%string.
Proof.
  eexists. split; [reflexivity|]. repeat split.
Qed.

(* ================================================================== *)
(** * Further properties of the store *)

(** ** Before [init_db], and after a rename that failed *)

(** X1.  On a database file that [init_db] never prepared, the store
    raises OperationalError and stores nothing: without an events table
    [add_event], [get_events] and [get_attendance_data] raise, without an
    attendees table [add_attendee] and [get_attendance_data] do. *)
Theorem X1_store_needs_init_db (w : world) :
  (events (disk w) = None ->
   (forall title event_date location topic,
       fst (add_event title event_date location topic w)
       = Raise (OperationalError "no such table")
       /\ disk (snd (add_event title event_date location topic w)) = disk w)
   /\ fst (get_events w) = Raise (OperationalError "no such table")
   /\ fst (get_attendance_data w) = Raise (OperationalError "no such table"))
  /\ (attendees (disk w) = None ->
      (forall event_id name gender province,
          fst (add_attendee event_id name gender province w)
          = Raise (OperationalError "no such table")
          /\ disk (snd (add_attendee event_id name gender province w)) = disk w)
      /\ fst (get_attendance_data w) = Raise (OperationalError "no such table")).
Proof.
  split; intros H; (split; [|try split]).
  - intros. rewrite add_event_run. unfold insert_into. cbn [get_table].
    rewrite H. now split.
  - rewrite get_events_run. unfold select_from. cbn [get_table].
    now rewrite H.
  - rewrite get_attendance_data_run. unfold select_attendance_join.
    cbn [get_table]. rewrite H. now destruct (attendees (disk w)).
  - intros. rewrite add_attendee_run. unfold insert_into. cbn [get_table].
    rewrite H. now split.
  - rewrite get_attendance_data_run. unfold select_attendance_join.
    cbn [get_table]. now rewrite H.
Qed.

Lemma X1_store_needs_init_db_witness :
  fst (get_events (fresh sqlite_new)) = Raise (OperationalError "no such table")
  /\ fst (add_attendee 1 "Amina" "Female" "Nairobi" (fresh sqlite_new))
     = Raise (OperationalError "no such table").
Proof.
  split.
  - exact (proj1 (proj2 (proj1 (X1_store_needs_init_db (fresh sqlite_new))
                           eq_refl))).
  - exact (proj1 (proj1 (proj2 (X1_store_needs_init_db (fresh sqlite_new))
                           eq_refl) 1 "Amina" "Female" "Nairobi")).
Defined.

Lemma forallb_first_false {A : Type} (p : A -> bool) (x : A) (l : list A) :
  In x l -> p x = false -> forallb p l = false.
Proof.
  intros I F. destruct (forallb p l) eqn:E; [|reflexivity].
  rewrite forallb_forall in E. rewrite (E x I) in F. discriminate.
Qed.

(** When the rename raises (or is not tried and would), [init_db] leaves
    what the CREATE statements left. *)
Lemma init_db_without_rename (w : world) (e : exn) :
  rename_column (sqlite w) (created (disk w)) Events "date" "event_date"
  = Raise e ->
  fst (init_db w) = Ok tt /\ disk (snd (init_db w)) = created (disk w).
Proof.
  intros R. rewrite init_db_run. cbn [fst snd disk]. split; [reflexivity|].
  unfold init_result. rewrite R. now destruct (date_not_event_date _).
Qed.

(** X2.  An events table without an event_date column (what a rename that
    failed leaves behind) makes [add_event] and [get_events] raise
    OperationalError; [add_event] stores nothing.  So after an [init_db]
    whose rename failed on such a table, the store cannot be used. *)
Theorem X2_failed_rename_leaves_store_unusable (w : world) (tb : table) :
  events (disk w) = Some tb ->
  has_column tb "event_date" = false ->
  ((forall title event_date location topic,
       fst (add_event title event_date location topic w)
       = Raise (OperationalError "table has no column named")
       /\ disk (snd (add_event title event_date location topic w)) = disk w)
   /\ fst (get_events w) = Raise (OperationalError "no such column"))
  /\ (forall e,
         rename_column (sqlite w) (created (disk w)) Events "date" "event_date"
         = Raise e ->
         forall title event_date location topic,
           fst ((init_db ;; add_event title event_date location topic) w)
           = Raise (OperationalError "table has no column named")).
Proof.
  intros H C.
  assert (A : forall w0, events (disk w0) = Some tb ->
              forall title event_date location topic,
                fst (add_event title event_date location topic w0)
                = Raise (OperationalError "table has no column named")
                /\ disk (snd (add_event title event_date location topic w0))
                   = disk w0).
  { intros w0 H0 title event_date location topic.
    rewrite add_event_run. unfold insert_into. cbn [get_table]. rewrite H0.
    rewrite (forallb_first_false (has_column tb) "event_date")
      by (try exact C; right; now left).
    now split. }
  split; [split|].
  - now apply A.
  - rewrite get_events_run. unfold select_from. cbn [get_table]. rewrite H.
    rewrite (forallb_first_false (has_column tb) "event_date")
      by (try exact C; right; right; now left).
    reflexivity.
  - intros e R title event_date location topic. unfold bind.
    destruct (init_db_without_rename w e R) as [Ok1 Keep].
    destruct (init_db w) as [[[]|x] w1]; [|discriminate].
    cbn [snd] in Keep. apply A. now rewrite Keep, created_events, H.
Qed.

Lemma X2_failed_rename_leaves_store_unusable_witness :
  fst ((init_db ;; add_event "Seed Fair" "2024-04-02" "Kiambu" "seed")
         (world_of sqlite_old legacy_database))
  = Raise (OperationalError "table has no column named")
  /\ fst (get_events (world_of sqlite_old legacy_database))
     = Raise (OperationalError "no such column").
Proof.
  pose proof (X2_failed_rename_leaves_store_unusable
                (world_of sqlite_old legacy_database) _ eq_refl eq_refl)
    as [[_ G] F].
  split; [|exact G].
  exact (F (OperationalError "near COLUMN: syntax error") eq_refl
           "Seed Fair" "2024-04-02" "Kiambu" "seed").
Defined.

(** ** A legacy database under a library that can rename *)

(** X3.  [init_db] brings the events table of the earlier version to the
    present schema and keeps every row: the date column becomes
    event_date, nothing else changes.  When the old rows are those of the
    events [es], [get_events] then returns these events, the old dates
    under the key event_date. *)
Theorem X3_init_db_migrates_legacy_events (w : world)
        (rows : list (Z * list value)) (seq : Z) :
  rename_column_supported (sqlite w) = true ->
  events (disk w) = Some (legacy_events rows seq) ->
  fst (init_db w) = Ok tt
  /\ events (disk (snd (init_db w))) = Some (current_events rows seq)
  /\ (forall es,
         rows = number_rows 1 (map event_values es) ->
         fst ((init_db ;; get_events) w) = Ok (numbered 1 es)).
Proof.
  intros S H.
  assert (D : events (fst (init_result (sqlite w) (disk w)))
              = Some (current_events rows seq)).
  { unfold init_result.
    rewrite table_info_names, created_events, H.
    change (date_not_event_date (map VStr (column_names (legacy_events rows seq))))
      with true.
    unfold rename_column. rewrite S. cbn [negb get_table].
    rewrite created_events, H. reflexivity. }
  split; [now rewrite init_db_run|]. split; [now rewrite init_db_run|].
  intros es ->. unfold bind. rewrite init_db_run.
  rewrite get_events_run. unfold select_from. cbn [get_table disk].
  rewrite D.
  change (forallb (has_column (current_events _ seq)) _) with true.
  cbn [negb after_select fst current_events tbl_rows].
  now rewrite event_rows_dicts.
Qed.

Lemma X3_init_db_migrates_legacy_events_witness :
  events (disk (snd (init_db (world_of sqlite_new legacy_database))))
  = Some (current_events [(1, [VStr "Field day"; VStr "2023-05-01";
                               VStr "Thika"; VNone])] 1).
Proof.
  exact (proj1 (proj2 (X3_init_db_migrates_legacy_events
                         (world_of sqlite_new legacy_database) _ _
                         eq_refl eq_refl))).
Defined.

(** ** [init_db] on every start *)

(** X4.  On a store with events and attendees in it, [init_db] changes
    nothing in the database file: running it at every start of the
    application is safe. *)
Theorem X4_init_db_keeps_the_store (w : world) (es : list event_args)
        (atts : list attendee_args) :
  disk w = store es atts ->
  fst (init_db w) = Ok tt /\ disk (snd (init_db w)) = disk w.
Proof.
  intros H. rewrite init_db_run. cbn [fst snd disk]. split; [reflexivity|].
  rewrite H. reflexivity.
Qed.

Lemma X4_init_db_keeps_the_store_witness :
  disk (snd (init_db (world_of sqlite_new (store [soil_day] [amina 1]))))
  = store [soil_day] [amina 1].
Proof.
  exact (proj2 (X4_init_db_keeps_the_store
                  (world_of sqlite_new (store [soil_day] [amina 1]))
                  [soil_day] [amina 1] eq_refl)).
Defined.

(** ** An attendee registered before the event exists *)

Lemma attendance_reached (lib : library) (cs : list call) :
  fst ((init_db ;; do_calls cs ;; get_attendance_data) (fresh lib))
  = Ok (inner_join (numbered 1 (events_of cs)) (attendees_of cs)).
Proof.
  destruct (run_reached lib cs get_attendance_data) as (w & D & _ & R).
  rewrite R. now apply get_attendance_data_store.
Qed.

Lemma attendees_of_app (cs cs' : list call) :
  attendees_of (cs ++ cs') = (attendees_of cs ++ attendees_of cs')%list.
Proof.
  induction cs as [|c cs IH]; [reflexivity|].
  destruct c as [e|a]; cbn [app attendees_of]; [exact IH|].
  destruct (fits_int64 _); [cbn [app]; now rewrite IH | exact IH].
Qed.

Lemma inner_join_app (evs : list record) (atts atts' : list attendee_args) :
  inner_join evs (atts ++ atts') = (inner_join evs atts ++ inner_join evs atts')%list.
Proof. unfold inner_join. apply flat_map_app. Qed.

Lemma event_with_id_beyond (es : list event_args) (n id : Z) :
  n + Z.of_nat (length es) <= id -> event_with_id (numbered n es) id = None.
Proof.
  revert n. induction es as [|e es IH]; intros n H; [reflexivity|].
  unfold event_with_id in *. cbn [numbered find].
  change (id_of (event_record n e)) with (VInt n). cbn [value_eqb].
  cbn [length] in H. destruct (Z.eqb_spec n id); [lia|]. apply IH. lia.
Qed.

Lemma event_with_id_last (es : list event_args) (e : event_args) (n : Z) :
  event_with_id (numbered n (es ++ [e])) (n + Z.of_nat (length es))
  = Some (event_record (n + Z.of_nat (length es)) e).
Proof.
  revert n. induction es as [|x es IH]; intros n.
  - unfold event_with_id. cbn [app numbered find length].
    change (id_of (event_record n e)) with (VInt n). cbn [value_eqb].
    rewrite Z.add_0_r, Z.eqb_refl. reflexivity.
  - unfold event_with_id in *. cbn [app numbered find length].
    change (id_of (event_record n x)) with (VInt n). cbn [value_eqb].
    destruct (Z.eqb_spec n (n + Z.of_nat (S (length es)))); [lia|].
    replace (n + Z.of_nat (S (length es))) with (n + 1 + Z.of_nat (length es))
      by lia.
    apply IH.
Qed.

(** X5.  The join is made when the data is read, and ids are handed out
    in sequence.  So an attendee registered under the id that the next
    event will get has no attendance record at first, and gets one, under
    the title and date of that event, as soon as that event is added. *)
Theorem X5_attendee_of_the_next_id_joins_the_next_event
        (lib : library) (cs : list call) (a : attendee_args) (e : event_args) :
  arg_event_id a = 1 + Z.of_nat (length (events_of cs)) ->
  fits_int64 (VInt (arg_event_id a)) = true ->
  fst ((init_db ;; do_calls (cs ++ [AddAttendee a]) ;; get_attendance_data)
         (fresh lib))
  = fst ((init_db ;; do_calls cs ;; get_attendance_data) (fresh lib))
  /\ exists before,
      fst ((init_db ;; do_calls (cs ++ [AddEvent e]) ;; get_attendance_data)
             (fresh lib)) = Ok before
      /\ fst ((init_db ;; do_calls (cs ++ [AddAttendee a; AddEvent e]) ;;
               get_attendance_data) (fresh lib))
         = Ok (before
               ++ [attendance_record (event_record (arg_event_id a) e) a])%list.
Proof.
  intros I F. rewrite !attendance_reached.
  rewrite !events_of_app, !attendees_of_app. cbn [events_of attendees_of].
  rewrite F, !app_nil_r. split.
  - rewrite inner_join_app. unfold inner_join at 2. cbn [flat_map].
    rewrite event_with_id_beyond by lia. now rewrite !app_nil_r.
  - eexists. split; [reflexivity|].
    rewrite inner_join_app. f_equal. unfold inner_join. cbn [flat_map].
    rewrite I, event_with_id_last. reflexivity.
Qed.

Lemma X5_attendee_of_the_next_id_joins_the_next_event_witness :
  fst ((init_db ;; do_calls ([AddEvent soil_day] ++ [AddAttendee (kofi 2)]) ;;
        get_attendance_data) (fresh sqlite_new))
  = fst ((init_db ;; do_calls [AddEvent soil_day] ;; get_attendance_data)
           (fresh sqlite_new)).
Proof.
  exact (proj1 (X5_attendee_of_the_next_id_joins_the_next_event
                  sqlite_new [AddEvent soil_day] (kofi 2) seed_fair
                  eq_refl eq_refl)).
Defined.

(* ================================================================== *)
(** * Further properties of the aggregator *)

Section Totals.
Context {K : Type}.
Variable eqb : K -> K -> bool.

Lemma total_count_element (d : list (K * Z)) (k : K) :
  total (count_element eqb d k) = total d + 1.
Proof.
  unfold count_element, total.
  induction d as [|[x w] d IH]; cbn [dict_get dict_setitem map snd fold_right].
  - lia.
  - destruct (eqb x k); cbn [map snd fold_right]; [lia|].
    rewrite IH. lia.
Qed.

Lemma total_count_elements (l : list K) (acc : list (K * Z)) :
  total (fold_left (count_element eqb) l acc) = total acc + Z.of_nat (length l).
Proof.
  revert acc. induction l as [|x l IH]; intros acc; cbn [fold_left length].
  - lia.
  - rewrite IH, total_count_element. lia.
Qed.

Hypothesis eqb_eq : forall a b, eqb a b = true <-> a = b.

Lemma first_seen_in (l : list K) (k : K) : In k (first_seen eqb l) <-> In k l.
Proof.
  induction l as [|x l IH]; cbn [first_seen]; [reflexivity|].
  cbn [In]. rewrite filter_In, IH. split.
  - intros [H|[H _]]; [now left | now right].
  - intros [H|H]; [now left|].
    destruct (eqb x k) eqn:E; [left; now apply eqb_eq|].
    right. split; [exact H | reflexivity].
Qed.

Lemma occurrences_in (l : list K) (k : K) : In k l -> 1 <= occurrences eqb l k.
Proof.
  assert (N : forall l0, 0 <= occurrences eqb l0 k).
  { induction l0 as [|x l0 IH]; cbn [occurrences]; [lia|].
    destruct (eqb x k); lia. }
  induction l as [|x l IH]; [intros []|]. cbn [occurrences].
  intros [H|H].
  - subst x. rewrite (proj2 (eqb_eq k k) eq_refl). specialize (N l). lia.
  - specialize (IH H). destruct (eqb x k); lia.
Qed.

Lemma dict_get_of_entry (d : list (K * Z)) (k : K) (c dflt : Z) :
  NoDup (dict_keys d) -> In (k, c) d -> dict_get eqb d k dflt = c.
Proof.
  induction d as [|[x w] d IH]; [intros _ []|].
  cbn [dict_keys map fst dict_get]. intros N [H|H].
  - inversion H. subst. now rewrite (proj2 (eqb_eq k k) eq_refl).
  - inversion N as [|? ? Nx Nd]. subst.
    destruct (eqb x k) eqn:E; [|now apply IH].
    apply eqb_eq in E. subst x. exfalso. apply Nx.
    unfold dict_keys. apply in_map_iff. now exists (k, c).
Qed.
End Totals.

(** X6.  What [Counter] keeps: its keys are exactly the values that
    occur, every count is at least 1 and is the number of occurrences of
    its key, and the counts add up to the number of elements counted. *)
Theorem X6_counter_keys_counts_and_total (l : list value) :
  (forall k, In k (dict_keys (Counter value_eqb l)) <-> In k l)
  /\ (forall k c, In (k, c) (Counter value_eqb l) ->
        c = occurrences value_eqb l k /\ 1 <= c)
  /\ total (Counter value_eqb l) = Z.of_nat (length l).
Proof.
  assert (keys : dict_keys (Counter value_eqb l) = first_seen value_eqb l).
  { unfold Counter. rewrite (count_elements_keys value_eqb value_eqb_eq).
    cbn [dict_keys map app].
    rewrite (filter_ext _ (fun _ => true)) by reflexivity. apply filter_true. }
  split; [|split].
  - intros k. rewrite keys. apply (first_seen_in value_eqb value_eqb_eq).
  - intros k c H.
    assert (I : In k l).
    { apply (first_seen_in value_eqb value_eqb_eq). rewrite <- keys.
      unfold dict_keys. apply in_map_iff. now exists (k, c). }
    assert (G : dict_get value_eqb (Counter value_eqb l) k 0 = c).
    { apply (dict_get_of_entry value_eqb value_eqb_eq); [|exact H].
      rewrite keys. apply (first_seen_NoDup value_eqb value_eqb_eq). }
    unfold Counter in G.
    rewrite (count_elements_get value_eqb value_eqb_eq) in G. cbn [dict_get] in G.
    subst c. split; [lia|].
    pose proof (occurrences_in value_eqb value_eqb_eq l k I). lia.
  - unfold Counter. rewrite total_count_elements. reflexivity.
Qed.

Lemma count_by_spec (field : string) (data : list record) :
  count_by field data
  = if lacks field data then Raise (KeyError field)
    else Ok (Counter value_eqb (field_values field data)).
Proof.
  unfold count_by.
  assert (P : project field data
              = if lacks field data then Raise (KeyError field)
                else Ok (field_values field data)).
  { induction data as [|item data IH]; [reflexivity|].
    cbn [project lacks existsb field_values map]. unfold getitem.
    destruct (dict_contains String.eqb item field); cbn [negb orb];
      [|reflexivity].
    rewrite IH. fold (lacks field data). now destruct (lacks field data). }
  rewrite P. now destruct (lacks field data).
Qed.

(** X7.  Counting by a field, as the report does with [item[field]]:
    it raises KeyError of that field as soon as a record lacks it, and
    otherwise it is the [Counter] of the values under the field. *)
Theorem X7_count_by_raises_on_a_missing_field (field : string)
        (data : list record) :
  count_by field data
  = if lacks field data then Raise (KeyError field)
    else Ok (Counter value_eqb (field_values field data)).
Proof. apply count_by_spec. Qed.

(* ================================================================== *)
(** * Properties of the page *)

(** ** The store calls, with the world they leave *)

Lemma init_db_on_store (w : world) (es : list event_args)
      (atts : list attendee_args) :
  fst (init_result (sqlite w) (disk w)) = store es atts ->
  exists w', init_db w = (Ok tt, w') /\ disk w' = store es atts.
Proof. intros H. rewrite init_db_run. eexists. split; [reflexivity | exact H]. Qed.

Lemma add_event_on_store (w : world) (es : list event_args)
      (atts : list attendee_args) (e : event_args) :
  disk w = store es atts ->
  exists w',
    add_event (arg_title e) (arg_event_date e) (arg_location e) (arg_topic e) w
    = (Ok tt, w')
    /\ disk w' = store (es ++ [e]) atts.
Proof.
  intros H. rewrite add_event_run, H, insert_event_store.
  eexists. split; reflexivity.
Qed.

Lemma get_events_on_store (w : world) (es : list event_args)
      (atts : list attendee_args) :
  disk w = store es atts ->
  exists w', get_events w = (Ok (numbered 1 es), w') /\ disk w' = store es atts.
Proof.
  intros H. pose proof (get_events_store w es atts H) as G.
  rewrite get_events_run in *.
  destruct (select_from _ _ _) as [rows|e]; cbn [after_select fst] in *;
    [|discriminate].
  inversion G. eexists. split; [reflexivity | exact H].
Qed.

Lemma get_attendance_data_on_store (w : world) (es : list event_args)
      (atts : list attendee_args) :
  disk w = store es atts ->
  exists w',
    get_attendance_data w = (Ok (inner_join (numbered 1 es) atts), w')
    /\ disk w' = store es atts.
Proof.
  intros H. pose proof (get_attendance_data_store w es atts H) as G.
  rewrite get_attendance_data_run in *.
  destruct (select_attendance_join _) as [rows|e]; cbn [after_select fst] in *;
    [|discriminate].
  inversion G. eexists. split; [reflexivity | exact H].
Qed.

Lemma add_attendee_any_int (event_id : Z) (name gender province : string) :
  add_attendee_any (VInt event_id) name gender province
  = add_attendee event_id name gender province.
Proof. reflexivity. Qed.

Lemma add_attendee_on_store (w : world) (es : list event_args)
      (atts : list attendee_args) (a : attendee_args) :
  disk w = store es atts ->
  exists r w',
    add_attendee_any (VInt (arg_event_id a)) (arg_name a) (arg_gender a)
                     (arg_province a) w = (r, w')
    /\ (if fits_int64 (VInt (arg_event_id a))
        then r = Ok tt /\ disk w' = store es (atts ++ [a])
        else r = Raise (OverflowError
                          "Python int too large to convert to SQLite INTEGER")
             /\ disk w' = store es atts).
Proof.
  intros H. rewrite add_attendee_any_int, add_attendee_run, H.
  destruct (fits_int64 (VInt (arg_event_id a))) eqn:F.
  - rewrite insert_attendee_store by exact F.
    eexists. eexists. split; [reflexivity|]. now split.
  - rewrite insert_attendee_overflow by exact F.
    eexists. eexists. split; [reflexivity|]. cbn [disk]. now split.
Qed.

(** ** The options of the select box *)

Lemma option_of_event (id : Z) (e : event_args) :
  option_of (event_record id e) = Ok (label_of e, VInt id).
Proof. reflexivity. Qed.

Lemma event_options_numbered (es : list event_args) (n : Z) (acc : record) :
  event_options_from acc (numbered n es)
  = Ok (fold_left (fun d kv => dict_setitem String.eqb d (fst kv) (snd kv))
                  (labelled n es) acc).
Proof.
  revert n acc. induction es as [|e es IH]; intros n acc; [reflexivity|].
  cbn [numbered event_options_from labelled fold_left].
  rewrite option_of_event. cbn [fst snd]. apply IH.
Qed.

Lemma labelled_ids (es : list event_args) (n : Z) (k : string) (v : value) :
  In (k, v) (labelled n es) ->
  exists id, v = VInt id /\ n <= id < n + Z.of_nat (length es).
Proof.
  revert n. induction es as [|e es IH]; intros n; [intros []|].
  cbn [labelled In length]. intros [H|H].
  - inversion H. exists n. split; [reflexivity | lia].
  - destruct (IH _ H) as (id & E & B). exists id. split; [exact E | lia].
Qed.

Lemma options_nonempty (e : event_args) (es : list event_args) :
  dict_keys (options_of (e :: es)) <> [].
Proof.
  assert (C : dict_contains String.eqb (options_of (e :: es)) (label_of e) = true).
  { unfold options_of. apply dict_zip_contains. right. cbn [labelled map fst].
    now left. }
  intros N. rewrite (dict_contains_keys String.eqb), N in C. discriminate.
Qed.

Lemma nth_in_or_hd {A : Type} (l : list A) (i : nat) (d : A) :
  l <> [] -> In (nth i l (hd d l)) l.
Proof.
  intros N. destruct (Nat.lt_ge_cases i (length l)) as [L|L].
  - now apply nth_In.
  - rewrite nth_overflow by exact L. destruct l; [contradiction | now left].
Qed.

(** The label that comes back from the select box is one of the options,
    and the id behind it is the id of an event. *)
Lemma selected_id_valid (e : event_args) (es : list event_args) (s : session) :
  dict_contains String.eqb (options_of (e :: es)) (selected_label (e :: es) s)
  = true
  /\ exists id, selected_id (e :: es) s = VInt id
                /\ 1 <= id <= Z.of_nat (length (e :: es)).
Proof.
  assert (C : dict_contains String.eqb (options_of (e :: es))
                (selected_label (e :: es) s) = true).
  { rewrite (dict_contains_keys String.eqb). apply existsb_exists.
    exists (selected_label (e :: es) s). split; [|apply String.eqb_refl].
    unfold selected_label. apply nth_in_or_hd. apply options_nonempty. }
  split; [exact C|].
  apply (dict_get_in String.eqb String.eqb_eq _ _ VNone) in C.
  apply dict_zip_entries in C. destruct C as [[]|C].
  apply labelled_ids in C. destruct C as (id & E & B).
  exists id. split; [exact E | lia].
Qed.

(** ** The three tabs on a store *)

Ltac script_step :=
  cbv beta iota zeta delta
      [script_bind show script_ret call_py call_result text_input date_input
       selectbox form_submit_button].

Lemma add_event_tab_on_store (s : session) (out : list element) (w : world)
      (es : list event_args) (atts : list attendee_args) :
  disk w = store es atts ->
  exists w',
    add_event_tab s out w = (Ok tt, (out ++ add_event_shown s)%list, w')
    /\ disk w' = store (es ++ new_events s) atts.
Proof.
  intros H. unfold add_event_tab, add_event_shown, new_events. script_step.
  destruct (in_submitted s); cbn [andb].
  - destruct (nonempty (in_title s)).
    + destruct (add_event_on_store w es atts (event_of s) H) as (w' & R & D).
      cbn [event_of arg_title arg_event_date arg_location arg_topic] in R.
      rewrite R. exists w'. split; [|exact D].
      repeat rewrite <- app_assoc. reflexivity.
    + exists w. split; [|now rewrite app_nil_r].
      repeat rewrite <- app_assoc. reflexivity.
  - exists w. split; [|now rewrite app_nil_r].
    repeat rewrite <- app_assoc. reflexivity.
Qed.

Lemma register_attendee_tab_on_store (s : session) (out : list element)
      (w : world) (es : list event_args) (atts : list attendee_args) :
  disk w = store es atts ->
  exists r w',
    register_attendee_tab s out w = (r, (out ++ register_shown es s)%list, w')
    /\ disk w' = store es (atts ++ registered es s)
    /\ (Z.of_nat (length es) < 2 ^ 63 -> r = Ok tt).
Proof.
  intros H. unfold register_attendee_tab, register_shown. script_step.
  destruct (get_events_on_store w es atts H) as (w1 & R & D). rewrite R.
  destruct es as [|e es].
  - cbn [numbered registered]. exists (Ok tt), w1.
    split; [now rewrite <- app_assoc|]. rewrite app_nil_r. now split.
  - cbn [numbered]. unfold event_options.
    change (event_record 1 e :: numbered (1 + 1) es) with (numbered 1 (e :: es)).
    rewrite event_options_numbered. fold (options_of (e :: es)).
    unfold registered.
    destruct (in_submit_attendee s); cbn [andb];
      [|exists (Ok tt), w1; split;
        [repeat rewrite <- app_assoc; reflexivity|];
        rewrite app_nil_r; now split].
    destruct (nonempty (in_attendee_name s));
      [|exists (Ok tt), w1; split;
        [repeat rewrite <- app_assoc; reflexivity|];
        rewrite app_nil_r; now split].
    destruct (selected_id_valid e es s) as (C & id & E & B).
    unfold getitem. fold (selected_label (e :: es) s). rewrite C.
    fold (selected_id (e :: es) s). rewrite E.
    destruct (add_attendee_on_store w1 (e :: es) atts
                {| arg_event_id := id; arg_name := in_attendee_name s;
                   arg_gender := nth (in_gender s) genders
                                     (hd EmptyString genders);
                   arg_province := in_province s |} D)
      as (r & w2 & A & F).
    cbn [arg_event_id arg_name arg_gender arg_province] in A, F.
    rewrite A.
    destruct (fits_int64 (VInt id)) eqn:Fit; destruct F as [-> D2].
    + exists (Ok tt), w2. split; [|now split].
      repeat rewrite <- app_assoc. reflexivity.
    + eexists. exists w2. split; [repeat rewrite <- app_assoc; reflexivity|].
      rewrite app_nil_r. split; [exact D2|].
      intros L. exfalso. cbn [fits_int64] in Fit.
      apply andb_false_iff in Fit.
      destruct Fit as [Fit|Fit]; [apply Z.leb_gt in Fit | apply Z.ltb_ge in Fit];
        lia.
Qed.

Lemma inner_join_keys (evs : list record) (atts : list attendee_args)
      (r : record) :
  In r (inner_join evs atts) -> dict_keys r = attendance_keys.
Proof.
  unfold inner_join. rewrite in_flat_map. intros (a & _ & H).
  destruct (event_with_id evs (arg_event_id a)); [|destruct H].
  destruct H as [<-|[]]. reflexivity.
Qed.

Lemma lacks_none (field : string) (data : list record) :
  (forall r, In r data -> dict_keys r = attendance_keys) ->
  In field attendance_keys ->
  lacks field data = false.
Proof.
  intros K F. destruct (lacks field data) eqn:E; [|reflexivity].
  unfold lacks in E. apply existsb_exists in E. destruct E as (r & I & N).
  rewrite (dict_contains_keys String.eqb), (K r I) in N.
  apply negb_true_iff in N.
  assert (T : existsb (fun x => String.eqb x field) attendance_keys = true).
  { apply existsb_exists. exists field. split; [exact F | apply String.eqb_refl]. }
  rewrite T in N. discriminate.
Qed.

Lemma no_extra_keys_attendance (data : list record) :
  (forall r, In r data -> dict_keys r = attendance_keys) ->
  no_extra_keys data = true.
Proof.
  intros K. destruct data as [|first rest]; [reflexivity|].
  cbn [no_extra_keys]. apply forallb_forall. intros r I.
  unfold keys_within. rewrite (K r I), (K first (or_introl eq_refl)).
  reflexivity.
Qed.

Lemma numbered_length (es : list event_args) (n : Z) :
  length (numbered n es) = length es.
Proof.
  revert n. induction es as [|e es IH]; intros n; [reflexivity|].
  cbn [numbered length]. now rewrite IH.
Qed.

Lemma view_reports_tab_on_store (out : list element) (w : world)
      (es : list event_args) (atts : list attendee_args) :
  disk w = store es atts ->
  exists w',
    view_reports_tab out w
    = (Ok tt,
       (out ++ report_shown (length es) (inner_join (numbered 1 es) atts))%list,
       w')
    /\ disk w' = store es atts.
Proof.
  intros H. unfold view_reports_tab, report_shown. script_step.
  destruct (get_attendance_data_on_store w es atts H) as (w1 & R & D).
  rewrite R.
  pose proof (inner_join_keys (numbered 1 es) atts) as K.
  destruct (inner_join (numbered 1 es) atts) as [|r data] eqn:J.
  - exists w1. split; [|exact D]. now rewrite <- app_assoc.
  - destruct (get_events_on_store w1 es atts D) as (w2 & R2 & D2).
    rewrite R2. unfold events_counts, gender_counts, province_counts.
    rewrite !count_by_spec, export_csv_spec.
    rewrite !lacks_none by (try exact K; cbn; tauto).
    rewrite no_extra_keys_attendance by exact K.
    rewrite numbered_length.
    exists w2. split; [|exact D2].
    repeat rewrite <- app_assoc. reflexivity.
Qed.

(** A run of the script on a store that [init_db] leaves as it finds it. *)
Lemma main_on_store (s : session) (w : world) (es : list event_args)
      (atts : list attendee_args) :
  fst (init_result (sqlite w) (disk w)) = store es atts ->
  disk (world_after (main s [] w))
  = store (events_after es s) (attendees_after es atts s)
  /\ (exists more,
         shown (main s [] w)
         = (page_top ++ add_event_shown s
            ++ register_shown (events_after es s) s ++ more)%list)
  /\ (Z.of_nat (length (events_after es s)) < 2 ^ 63 ->
      returned (main s [] w) = Ok tt
      /\ shown (main s [] w) = page_shown es atts s).
Proof.
  intros H. unfold main, page_shown, attendees_after.
  destruct (init_db_on_store w es atts H) as (w0 & R0 & D0).
  cbv beta iota zeta delta [script_bind show script_ret call_py].
  rewrite R0.
  destruct (add_event_tab_on_store s page_top w0 es atts D0) as (w1 & R1 & D1).
  fold (events_after es s) in D1.
  unfold page_top in R1 at 1. cbn [app] in R1 |- *. rewrite R1.
  destruct (register_attendee_tab_on_store s (page_top ++ add_event_shown s)%list
              w1 (events_after es s) atts D1) as (r2 & w2 & R2 & D2 & F2).
  rewrite R2.
  destruct r2 as [[]|e2].
  - destruct (view_reports_tab_on_store
                ((page_top ++ add_event_shown s)
                 ++ register_shown (events_after es s) s)%list w2 _ _ D2)
      as (w3 & R3 & D3).
    rewrite R3. unfold world_after, returned, shown. cbn [fst snd].
    split; [exact D3|]. split.
    + eexists. repeat rewrite <- app_assoc. reflexivity.
    + intros _. split; [reflexivity|]. now repeat rewrite <- app_assoc.
  - unfold world_after, returned, shown. cbn [fst snd].
    split; [exact D2|]. split.
    + exists []. now rewrite app_nil_r, <- app_assoc.
    + intros L. specialize (F2 L). discriminate.
Qed.

Lemma init_result_store (lib : library) (es : list event_args)
      (atts : list attendee_args) :
  fst (init_result lib (store es atts)) = store es atts.
Proof. reflexivity. Qed.

Lemma init_result_empty (lib : library) :
  fst (init_result lib empty_database) = store [] [].
Proof. reflexivity. Qed.

Lemma events_after_length (es : list event_args) (s : session) :
  (length (events_after es s) <= length es + 1)%nat.
Proof.
  unfold events_after, new_events. rewrite length_app.
  destruct (in_submitted s && nonempty (in_title s)); cbn [length]; lia.
Qed.

(** ** A run of the script *)

(** X8.  A run of [main] on a store (of fewer events than SQLite has
    ids) does not raise.  It stores the event of the first form when that
    form was submitted with a title, then the attendee of the second form
    when that form was submitted with a name, under the id of the chosen
    event, which may be the event just added; and its page is the three
    tabs, the last one reporting on the store as this run left it. *)
Theorem X8_main_stores_then_reports (s : session) (w : world)
        (es : list event_args) (atts : list attendee_args) :
  disk w = store es atts ->
  Z.of_nat (length es) + 1 < 2 ^ 63 ->
  returned (main s [] w) = Ok tt
  /\ disk (world_after (main s [] w))
     = store (events_after es s) (attendees_after es atts s)
  /\ shown (main s [] w) = page_shown es atts s.
Proof.
  intros H L.
  assert (P : fst (init_result (sqlite w) (disk w)) = store es atts)
    by (rewrite H; apply init_result_store).
  destruct (main_on_store s w es atts P) as (D & _ & F).
  pose proof (events_after_length es s) as B.
  destruct F as [R S]; [lia|]. now repeat split.
Qed.

Lemma X8_main_stores_then_reports_witness :
  disk (world_after (main filled_in []
                       (world_of sqlite_new (store [seed_fair] []))))
  = store [seed_fair; event_of filled_in]
          [{| arg_event_id := 1; arg_name := "Amina"; arg_gender := "Female";
              arg_province := "Nairobi" |}].
Proof.
  exact (proj1 (proj2 (X8_main_stores_then_reports filled_in
                         (world_of sqlite_new (store [seed_fair] []))
                         [seed_fair] [] eq_refl eq_refl))).
Defined.

(** X9.  The forms refuse an empty title and an empty name: a run in
    which Add Event is pressed with no title shows the error and stores no
    event, and a run in which Register Attendee is pressed with no name
    (there being an event to choose) shows the error and stores no
    attendee. *)
Theorem X9_main_refuses_empty_title_and_name (s : session) (w : world)
        (es : list event_args) (atts : list attendee_args) :
  disk w = store es atts ->
  (in_submitted s = true -> in_title s = EmptyString ->
   events (disk (world_after (main s [] w))) = events (disk w)
   /\ In (st_error "Please provide an event title.") (shown (main s [] w)))
  /\ (in_submit_attendee s = true -> in_attendee_name s = EmptyString ->
      attendees (disk (world_after (main s [] w))) = attendees (disk w)
      /\ (events_after es s <> [] ->
          In (st_error "Please provide the attendee's name.")
             (shown (main s [] w)))).
Proof.
  intros H.
  assert (P : fst (init_result (sqlite w) (disk w)) = store es atts)
    by (rewrite H; apply init_result_store).
  destruct (main_on_store s w es atts P) as (D & (more & S) & _).
  rewrite D, S, H. split.
  - intros B T. split.
    + unfold events_after, new_events. rewrite B, T. cbn [nonempty andb].
      now rewrite app_nil_r.
    + apply in_or_app. right. apply in_or_app. left.
      unfold add_event_shown. rewrite B, T. apply in_or_app. right. now left.
  - intros B T. split.
    + unfold attendees_after, registered. rewrite B, T. cbn [nonempty andb].
      destruct (events_after es s); now rewrite app_nil_r.
    + intros N. apply in_or_app. right. apply in_or_app. right.
      apply in_or_app. left. unfold register_shown.
      destruct (events_after es s); [contradiction|].
      right. apply in_or_app. right. rewrite B, T. now left.
Qed.

Lemma X9_main_refuses_empty_title_and_name_witness :
  events (disk (world_after (main no_title []
                               (world_of sqlite_new (store [seed_fair] [])))))
  = events (store [seed_fair] [])
  /\ In (st_error "Please provide an event title.")
        (shown (main no_title [] (world_of sqlite_new (store [seed_fair] [])))).
Proof.
  exact (proj1 (X9_main_refuses_empty_title_and_name no_title
                  (world_of sqlite_new (store [seed_fair] []))
                  [seed_fair] [] eq_refl) eq_refl eq_refl).
Defined.

(** ** The options of the select box, again *)

Section Assignments.
Context {K V : Type}.
Variable eqb : K -> K -> bool.
Hypothesis eqb_eq : forall a b, eqb a b = true <-> a = b.

(** The keys after a run of assignments: the old keys, then the new ones
    in first-seen order. *)
Lemma assignments_keys (pairs : list (K * V)) (acc : list (K * V)) :
  dict_keys (fold_left (fun d kv => dict_setitem eqb d (fst kv) (snd kv))
                       pairs acc)
  = (dict_keys acc
     ++ filter (unseen eqb (dict_keys acc)) (first_seen eqb (map fst pairs)))%list.
Proof.
  revert acc. induction pairs as [|[k v] pairs IH]; intros acc; simpl.
  - now rewrite app_nil_r.
  - rewrite IH. rewrite (dict_keys_setitem eqb).
    rewrite (dict_contains_keys eqb). unfold unseen at 2.
    destruct (existsb (fun x => eqb x k) (dict_keys acc)) eqn:E; simpl.
    + f_equal. rewrite filter_twice. apply filter_ext_in. intros y _.
      destruct (eqb k y) eqn:F; simpl; [|reflexivity].
      apply eqb_eq in F. subst y. unfold unseen. now rewrite E.
    + rewrite <- app_assoc. simpl. do 2 f_equal.
      rewrite filter_twice. apply filter_ext. intros y.
      unfold unseen. rewrite existsb_app. simpl. rewrite orb_false_r.
      rewrite negb_orb. apply andb_comm.
Qed.

(** The value under a key is the one assigned last. *)
Lemma assignments_last (before after : list (K * V)) (k : K) (v dflt : V)
      (acc : list (K * V)) :
  (forall p, In p after -> fst p <> k) ->
  dict_get eqb
    (fold_left (fun d kv => dict_setitem eqb d (fst kv) (snd kv))
               (before ++ (k, v) :: after) acc) k dflt = v.
Proof.
  intros N. rewrite fold_left_app. cbn [fold_left fst snd].
  generalize (fold_left (fun d kv => dict_setitem eqb d (fst kv) (snd kv))
                        before acc). intros d.
  assert (G : dict_get eqb (dict_setitem eqb d k v) k dflt = v).
  { rewrite (dict_get_setitem eqb eqb_eq).
    now rewrite (proj2 (eqb_eq k k) eq_refl). }
  revert G. generalize (dict_setitem eqb d k v). clear d.
  induction after as [|[k' v'] after IH]; intros d G; [exact G|].
  cbn [fold_left fst snd]. apply IH.
  - intros p I. apply N. now right.
  - rewrite (dict_get_setitem eqb eqb_eq).
    destruct (eqb k' k) eqn:E; [|exact G].
    apply eqb_eq in E. exfalso. apply (N (k', v')); [now left | exact E].
Qed.
End Assignments.

Lemma labelled_labels (es : list event_args) (n : Z) :
  map fst (labelled n es) = map label_of es.
Proof.
  revert n. induction es as [|e es IH]; intros n; [reflexivity|].
  cbn [labelled map fst]. now rewrite IH.
Qed.

Lemma labelled_app (es1 es2 : list event_args) (n : Z) :
  labelled n (es1 ++ es2)
  = (labelled n es1 ++ labelled (n + Z.of_nat (length es1)) es2)%list.
Proof.
  revert n. induction es1 as [|e es1 IH]; intros n.
  - cbn [app labelled length]. now rewrite Z.add_0_r.
  - cbn [app labelled length]. rewrite IH. do 3 f_equal. lia.
Qed.

(** X10.  The select box of events has one option for each distinct
    title and date, in the order the events were added, and the id behind
    an option is that of the last event with that title and date: of two
    events with the same title and date, only the later one can be
    chosen. *)
Theorem X10_one_option_per_title_and_date (es1 es2 : list event_args)
        (e : event_args) :
  (forall x, In x es2 -> label_of x <> label_of e) ->
  exists options,
    event_options (numbered 1 (es1 ++ e :: es2)) = Ok options
    /\ dict_keys options
       = first_seen String.eqb (map label_of (es1 ++ e :: es2))
    /\ getitem options (label_of e) = Ok (VInt (1 + Z.of_nat (length es1))).
Proof.
  intros N. unfold event_options. rewrite event_options_numbered.
  eexists. split; [reflexivity|]. split.
  - rewrite (assignments_keys String.eqb String.eqb_eq). cbn [dict_keys map app].
    rewrite labelled_labels.
    rewrite (filter_ext _ (fun _ => true)) by reflexivity. apply filter_true.
  - assert (G : forall dflt,
               dict_get String.eqb
                 (fold_left (fun d kv => dict_setitem String.eqb d (fst kv) (snd kv))
                            (labelled 1 (es1 ++ e :: es2)) []) (label_of e) dflt
               = VInt (1 + Z.of_nat (length es1))).
    { intros dflt. rewrite labelled_app. cbn [labelled].
      apply (assignments_last String.eqb String.eqb_eq).
      intros p I.
      assert (L : In (fst p) (map label_of es2)).
      { rewrite <- (labelled_labels es2 (1 + Z.of_nat (length es1) + 1)).
        now apply in_map. }
      apply in_map_iff in L. destruct L as (x & E & Ix). rewrite <- E.
      now apply N. }
    unfold getitem. rewrite G.
    destruct (dict_contains String.eqb _ (label_of e)) eqn:C; [reflexivity|].
    exfalso.
    assert (T : dict_contains String.eqb
                  (fold_left (fun d kv => dict_setitem String.eqb d (fst kv) (snd kv))
                             (labelled 1 (es1 ++ e :: es2)) []) (label_of e)
                = true).
    { apply dict_zip_contains. right. rewrite labelled_labels.
      apply in_map. apply in_or_app. right. now left. }
    rewrite T in C. discriminate.
Qed.

Lemma X10_one_option_per_title_and_date_witness :
  exists options,
    event_options (numbered 1 ([soil_day; seed_fair] ++ soil_day :: []))
    = Ok options
    /\ dict_keys options
       = ["Soil Health Day (2024-03-01)"; "Seed Fair (2024-04-02)"]
    /\ getitem options "Soil Health Day (2024-03-01)" = Ok (VInt 3).
Proof.
  exact (X10_one_option_per_title_and_date [soil_day; seed_fair] [] soil_day
           (fun x (H : In x []) => match H with end)).
Defined.

(** ** What the page keeps, run after run *)

Lemma nonempty_true (s : string) : nonempty s = true -> s <> EmptyString.
Proof. destruct s; [discriminate | intros _; discriminate]. Qed.

Lemma new_events_valid (s : session) : Forall valid_event (new_events s).
Proof.
  unfold new_events. destruct (in_submitted s); cbn [andb]; [|constructor].
  destruct (nonempty (in_title s)) eqn:N; constructor; [|constructor].
  now apply nonempty_true.
Qed.

Lemma registered_valid (es : list event_args) (s : session) :
  Forall (valid_attendee (length es)) (registered es s).
Proof.
  unfold registered. destruct es as [|e es]; [constructor|].
  destruct (in_submit_attendee s); cbn [andb]; [|constructor].
  destruct (nonempty (in_attendee_name s)) eqn:N; [|constructor].
  destruct (selected_id_valid e es s) as (_ & id & E & B). rewrite E.
  destruct (fits_int64 (VInt id)); constructor; [|constructor].
  split; [now apply nonempty_true | exact B].
Qed.

Lemma valid_attendee_more (n m : nat) (a : attendee_args) :
  (n <= m)%nat -> valid_attendee n a -> valid_attendee m a.
Proof. unfold valid_attendee. intros L [N B]. split; [exact N | lia]. Qed.

Lemma event_with_id_found (es : list event_args) (n id : Z) :
  n <= id < n + Z.of_nat (length es) ->
  exists ev, event_with_id (numbered n es) id = Some ev.
Proof.
  revert n. induction es as [|e es IH]; intros n B; [cbn [length] in B; lia|].
  unfold event_with_id in *. cbn [numbered find].
  change (id_of (event_record n e)) with (VInt n). cbn [value_eqb].
  destruct (Z.eqb_spec n id); [now eexists|].
  apply IH. cbn [length] in B. lia.
Qed.

(** Attendees that all refer to events have one record each. *)
Lemma inner_join_all (es : list event_args) (atts : list attendee_args) :
  Forall (valid_attendee (length es)) atts ->
  length (inner_join (numbered 1 es) atts) = length atts.
Proof.
  intros V. induction V as [|a atts [_ B] V IH]; [reflexivity|].
  unfold inner_join in *. cbn [flat_map]. rewrite length_app, IH.
  destruct (event_with_id_found es 1 (arg_event_id a)) as [ev E]; [lia|].
  rewrite E. reflexivity.
Qed.

(** X11.  Whatever is entered, run after run of the script from no
    database at all: the database is a store in which every event has a
    title, every attendee has a name and the id of an event in the store;
    so every attendee registered through the page has its attendance
    record. *)
Theorem X11_the_page_keeps_the_contract (lib : library) (s : session)
        (ss : list session) :
  exists es atts,
    disk (script_runs (s :: ss) (fresh lib)) = store es atts
    /\ Forall valid_event es
    /\ Forall (valid_attendee (length es)) atts
    /\ fst (get_attendance_data (script_runs (s :: ss) (fresh lib)))
       = Ok (inner_join (numbered 1 es) atts)
    /\ length (inner_join (numbered 1 es) atts) = length atts.
Proof.
  assert (G : forall ss0 w es atts,
             disk w = store es atts ->
             Forall valid_event es ->
             Forall (valid_attendee (length es)) atts ->
             exists es' atts',
               disk (script_runs ss0 w) = store es' atts'
               /\ Forall valid_event es'
               /\ Forall (valid_attendee (length es')) atts').
  { induction ss0 as [|s0 ss0 IH]; intros w es atts D Ve Va.
    - now exists es, atts.
    - cbn [script_runs].
      assert (P : fst (init_result (sqlite w) (disk w)) = store es atts)
        by (rewrite D; apply init_result_store).
      destruct (main_on_store s0 w es atts P) as (D' & _ & _).
      apply (IH _ _ _ D').
      + unfold events_after. apply Forall_app. split; [exact Ve|].
        apply new_events_valid.
      + unfold attendees_after. apply Forall_app. split.
        * eapply Forall_impl; [|exact Va]. intros a. apply valid_attendee_more.
          unfold events_after. rewrite length_app. lia.
        * apply registered_valid. }
  cbn [script_runs].
  destruct (main_on_store s (fresh lib) [] [] (init_result_empty lib))
    as (D & _ & _).
  destruct (G ss _ _ _ D) as (es & atts & D' & Ve & Va).
  - unfold events_after. apply Forall_app. split; [constructor|].
    apply new_events_valid.
  - unfold attendees_after. apply Forall_app. split; [constructor|].
    apply registered_valid.
  - exists es, atts. repeat split; try assumption.
    + now apply get_attendance_data_store.
    + now apply inner_join_all.
Qed.

(* ================================================================== *)
(** * From the store to the report and the export *)

Lemma csv_text_attendance (r : record) (data : list record) :
  dict_keys r = attendance_keys ->
  csv_text (r :: data)
  = ("event_title,event_date,gender,province" ++ Csv.lineterminator
     ++ csv_lines attendance_keys (r :: data))%string.
Proof. intros K. unfold csv_text. rewrite K. reflexivity. Qed.

(** X12.  What [get_attendance_data] returns always goes through the
    report and the export.  Its records have the keys event_title,
    event_date, gender, province and no other (no name, no location);
    counting them by any of these keys does not raise, and the counts add
    up to the number of records; [export_csv] does not raise on them, and
    its text, when there is a record, starts with the header line of
    these four keys. *)
Theorem X12_attendance_data_can_be_counted_and_exported
        (lib : library) (cs : list call) :
  exists data,
    fst ((init_db ;; do_calls cs ;; get_attendance_data) (fresh lib)) = Ok data
    /\ (forall r, In r data -> dict_keys r = attendance_keys)
    /\ (forall field, In field attendance_keys ->
          exists counts,
            count_by field data = Ok counts
            /\ total counts = Z.of_nat (length data))
    /\ export_csv data = Ok (csv_text data)
    /\ (forall r rest, data = r :: rest ->
          csv_text data
          = ("event_title,event_date,gender,province" ++ Csv.lineterminator
             ++ csv_lines attendance_keys data)%string).
Proof.
  exists (inner_join (numbered 1 (events_of cs)) (attendees_of cs)).
  pose proof (inner_join_keys (numbered 1 (events_of cs)) (attendees_of cs)) as K.
  split; [apply attendance_reached|]. split; [exact K|]. split; [|split].
  - intros field F. eexists. rewrite count_by_spec, lacks_none by assumption.
    split; [reflexivity|]. unfold Counter. rewrite total_count_elements.
    unfold field_values. now rewrite length_map.
  - now rewrite export_csv_spec, no_extra_keys_attendance.
  - intros r rest E. rewrite E in *. apply csv_text_attendance.
    apply K. now left.
Qed.

(* ------------------------------------------------------------------ *)
(** ** The CSV text determines the table *)

Definition starts_plain (t : string) : bool :=
  match t with
  | EmptyString => true
  | String c _ => negb (Ascii.eqb c Csv.quotechar)
  end.

Lemma lex_plain_chars (f t : string) :
  string_exists Csv.special f = false ->
  lex (f ++ t) Plain = (chars f ++ lex t Plain)%list.
Proof.
  induction f as [|c f IH]; [reflexivity|].
  cbn [string_exists]. intros H. apply orb_false_elim in H.
  destruct H as [Hc Hf]. unfold Csv.special in Hc.
  cbn [Csv.find_char Csv.lineterminator] in Hc.
  apply orb_false_elim in Hc. destruct Hc as [Hc Hnl].
  apply orb_false_elim in Hc. destruct Hc as [Hd Hq].
  apply orb_false_elim in Hnl. destruct Hnl as [Hcr Hlf].
  apply orb_false_elim in Hlf. destruct Hlf as [Hlf _].
  rewrite Ascii.eqb_sym in Hcr. rewrite Ascii.eqb_sym in Hlf.
  cbn [append lex chars]. rewrite Hd, Hq, Hcr, Hlf, IH by assumption.
  reflexivity.
Qed.

Lemma lex_quoted (f t : string) :
  lex (double_quotes f ++ String Csv.quotechar t) Quoted
  = (chars f ++ lex t QuoteSeen)%list.
Proof.
  induction f as [|c f IH].
  - reflexivity.
  - cbn [double_quotes chars]. destruct (Ascii.eqb c Csv.quotechar) eqn:E.
    + apply Ascii.eqb_eq in E. subst c.
      cbn [append lex]. rewrite Ascii.eqb_refl, IH. reflexivity.
    + cbn [append lex]. rewrite E, IH. reflexivity.
Qed.

Lemma lex_after_quote (t : string) :
  starts_plain t = true -> lex t QuoteSeen = lex t Plain.
Proof.
  destruct t as [|c t]; [reflexivity|]. cbn [starts_plain lex].
  intros H. apply negb_true_iff in H. now rewrite H.
Qed.

Lemma lex_field (f t : string) :
  starts_plain t = true ->
  lex (csv_field f ++ t) Plain = (field_tokens f ++ lex t Plain)%list.
Proof.
  intros H. unfold csv_field, field_tokens.
  destruct (string_exists Csv.special f) eqn:E.
  - cbn [append]. rewrite append_assoc. cbn [append lex].
    rewrite Ascii.eqb_refl.
    change (Ascii.eqb Csv.quotechar Csv.delimiter) with false. cbv iota.
    rewrite lex_quoted, lex_after_quote by assumption. reflexivity.
  - now apply lex_plain_chars.
Qed.

Lemma starts_plain_more (fields : list string) (t : string) :
  starts_plain t = true -> starts_plain (csv_more fields ++ t) = true.
Proof. intros H. destruct fields; [exact H | reflexivity]. Qed.

Lemma lex_more (fields : list string) (t : string) :
  starts_plain t = true ->
  lex (csv_more fields ++ t) Plain = (more_tokens fields ++ lex t Plain)%list.
Proof.
  intros H. induction fields as [|f rest IH]; [reflexivity|].
  cbn [csv_more more_tokens append lex].
  rewrite Ascii.eqb_refl, append_assoc, lex_field, IH, app_assoc.
  - reflexivity.
  - now apply starts_plain_more.
Qed.

Lemma lex_end_of_line (t : string) :
  lex (Csv.lineterminator ++ t) Plain = Eol :: lex t Plain.
Proof. reflexivity. Qed.

(** The tokens of a line of the writer, whatever follows it. *)
Lemma lex_line (fields : list string) (t : string) :
  lex (csv_line fields ++ t) Plain
  = (line_tokens fields ++ Eol :: lex t Plain)%list.
Proof.
  assert (general : forall f rest,
             lex ((String.concat (String Csv.delimiter EmptyString)
                     (map csv_field (f :: rest)) ++ Csv.lineterminator) ++ t)
               Plain
             = ((field_tokens f ++ more_tokens rest) ++ Eol :: lex t Plain)%list).
  { intros f rest.
    rewrite concat_more, !append_assoc, lex_field, lex_more, lex_end_of_line.
    - now rewrite app_assoc.
    - reflexivity.
    - now apply starts_plain_more. }
  unfold csv_line, line_tokens.
  destruct fields as [|f rest]; [reflexivity|].
  destruct f as [|c f]; [destruct rest as [|g rest]|]; try apply general.
  reflexivity.
Qed.

Definition not_eol (t : token) : bool :=
  match t with Eol => false | _ => true end.

Lemma split_rows_line (row rest : list token) :
  forallb not_eol row = true ->
  split_rows (row ++ Eol :: rest) = row :: split_rows rest.
Proof.
  induction row as [|t row IH]; [reflexivity|].
  cbn [forallb]. intros H. apply andb_prop in H. destruct H as [Ht Hrow].
  cbn [app split_rows]. rewrite IH by assumption.
  destruct t; try reflexivity. discriminate.
Qed.

Lemma forallb_app_true {A : Type} (p : A -> bool) (l1 l2 : list A) :
  forallb p l1 = true -> forallb p l2 = true -> forallb p (l1 ++ l2) = true.
Proof. intros H1 H2. rewrite forallb_app, H1, H2. reflexivity. Qed.

Lemma chars_not_eol (f : string) : forallb not_eol (chars f) = true.
Proof. induction f as [|c f IH]; [reflexivity | exact IH]. Qed.

Lemma field_tokens_not_eol (f : string) :
  forallb not_eol (field_tokens f) = true.
Proof.
  unfold field_tokens. destruct (string_exists Csv.special f); cbn [forallb not_eol];
    apply chars_not_eol.
Qed.

Lemma more_tokens_not_eol (fields : list string) :
  forallb not_eol (more_tokens fields) = true.
Proof.
  induction fields as [|f rest IH]; [reflexivity|].
  cbn [more_tokens forallb not_eol]. apply forallb_app_true;
    [apply field_tokens_not_eol | exact IH].
Qed.

Lemma line_tokens_not_eol (fields : list string) :
  forallb not_eol (line_tokens fields) = true.
Proof.
  unfold line_tokens. destruct fields as [|f rest]; [reflexivity|].
  destruct f as [|c f]; [destruct rest|];
    try (apply forallb_app_true;
         [apply field_tokens_not_eol | apply more_tokens_not_eol]).
  reflexivity.
Qed.

Lemma fields_from_chars (f g : string) (gs : list string) (tokens : list token) :
  fields_from tokens = g :: gs ->
  fields_from (chars f ++ tokens) = (f ++ g)%string :: gs.
Proof.
  intros H. induction f as [|c f IH]; [exact H|].
  cbn [chars app fields_from]. now rewrite IH.
Qed.

Lemma fields_from_field (f g : string) (gs : list string) (tokens : list token) :
  fields_from tokens = g :: gs ->
  fields_from (field_tokens f ++ tokens) = (f ++ g)%string :: gs.
Proof.
  intros H. unfold field_tokens.
  destruct (string_exists Csv.special f); cbn [app fields_from];
    now apply fields_from_chars.
Qed.

Lemma fields_from_more (fields : list string) :
  fields_from (more_tokens fields) = EmptyString :: fields.
Proof.
  induction fields as [|f rest IH]; [reflexivity|].
  cbn [more_tokens fields_from].
  rewrite (fields_from_field f EmptyString rest) by exact IH.
  now rewrite append_nil_r.
Qed.

Lemma fields_from_line (f : string) (rest : list string) :
  fields_from (field_tokens f ++ more_tokens rest) = f :: rest.
Proof.
  rewrite (fields_from_field f EmptyString rest) by apply fields_from_more.
  now rewrite append_nil_r.
Qed.

Lemma row_of_fields_from (tokens : list token) :
  tokens <> [] -> row_of tokens = fields_from tokens.
Proof. destruct tokens; [congruence | reflexivity]. Qed.

(** The fields of a line of the writer. *)
Lemma row_of_line (fields : list string) :
  row_of (line_tokens fields) = fields.
Proof.
  destruct fields as [|f rest]; [reflexivity|].
  destruct f as [|c f].
  - destruct rest as [|g rest]; [reflexivity|].
    unfold line_tokens. rewrite row_of_fields_from.
    + apply fields_from_line.
    + discriminate.
  - unfold line_tokens. rewrite row_of_fields_from.
    + apply fields_from_line.
    + unfold field_tokens.
      destruct (string_exists Csv.special (String c f)); discriminate.
Qed.

Lemma read_csv_line (fields : list string) (t : string) :
  read_csv (csv_line fields ++ t) = fields :: read_csv t.
Proof.
  unfold read_csv.
  rewrite lex_line, split_rows_line by apply line_tokens_not_eol.
  cbn [map]. now rewrite row_of_line.
Qed.

Lemma read_csv_lines (keys : list string) (data : list record) :
  read_csv (csv_lines keys data) = map (csv_fields keys) data.
Proof.
  induction data as [|r data IH]; [reflexivity|].
  cbn [csv_lines map]. now rewrite read_csv_line, IH.
Qed.

Lemma read_csv_text (data : list record) :
  read_csv (csv_text data) = csv_table data.
Proof.
  destruct data as [|first rest]; [reflexivity|].
  unfold csv_text, csv_table. now rewrite read_csv_line, read_csv_lines.
Qed.

(** X13 ([export_csv], lines 108-117).  The text that [export_csv]
    returns can be read back: splitting it at the line ends and the
    commas outside quotes, and undoing the quoting, gives the header (the
    keys of the first record) and then the fields of each record in order,
    whatever characters the fields contain (commas, quotes, line breaks);
    so two lists of records with the same text have the same header and
    the same fields. *)
Theorem X13_export_csv_text_reads_back
        (data : list record) (text : string) :
  export_csv data = Ok text ->
  read_csv text = csv_table data
  /\ forall other, export_csv other = Ok text -> csv_table other = csv_table data.
Proof.
  assert (back : forall d t, export_csv d = Ok t -> read_csv t = csv_table d).
  { intros d t. rewrite export_csv_spec.
    destruct (no_extra_keys d); [|discriminate].
    intros H. injection H as <-. apply read_csv_text. }
  intros H. split; [now apply back|].
  intros other H'. rewrite <- (back _ _ H'). now apply back.
Qed.

Lemma X13_export_csv_text_reads_back_witness :
  let data := [[("event_title", VStr "Soil, Health"); ("gender", VNone)];
               [("event_title", VStr (String "010" "Day")); ("gender", VStr "Male")]] in
  export_csv data = Ok (csv_text data)
  /\ read_csv (csv_text data) = csv_table data.
Proof.
  intros data. split; [reflexivity|].
  apply (proj1 (X13_export_csv_text_reads_back data (csv_text data) eq_refl)).
Defined.
